(** * ibt-exporter: a BLE dual-probe thermometer bridged to a metrics endpoint

    Shallow embedding of [main.py] and the properties of its decoder,
    notification handler and connection supervisor. *)

From Stdlib Require Import ZArith Lia List Bool.
From Stdlib Require Import Strings.Byte.
From Stdlib Require Import Floats.SpecFloat.
From stdpp Require Import base option strings gmap fin_maps.

Local Open Scope Z_scope.

(** ** Python values *)

(** A Python [bytearray] is a sequence of octets. *)
Definition bytes := list Byte.byte.

Definition byte_val (b : Byte.byte) : Z := Z.of_N (Byte.to_N b).

(** IEEE 754 binary64, the representation of a Python [float]. *)
Definition float := spec_float.
Definition prec : Z := 53.
Definition emax : Z := 1024.

(** The numeric values the program handles: [int] and [float]. *)
Inductive pyval :=
| PyInt (z : Z)
| PyFloat (f : float).

(** Exceptions, by the part of the class hierarchy the handlers discriminate:
    instances of [Exception] (with the name of their class and their
    arguments), [KeyboardInterrupt], and the other classes that derive from
    [BaseException] only ([CancelledError], [SystemExit], [GeneratorExit]). *)
Inductive exn :=
| PyException (cls : string) (args : list string)
| KeyboardInterrupt
| BaseExceptionOnly (cls : string).

Definition is_Exception (e : exn) : bool :=
  match e with PyException _ _ => true | _ => false end.

Definition is_KeyboardInterrupt (e : exn) : bool :=
  match e with KeyboardInterrupt => true | _ => false end.

Definition OverflowError (msg : string) : exn := PyException "OverflowError" [msg].
Definition ZeroDivisionError (msg : string) : exn := PyException "ZeroDivisionError" [msg].

(** Outcome of running a piece of the program: a value, a raised exception,
    or [Timeout] when the step budget of a [while True] loop is used up. *)
Inductive res (A : Type) :=
| Ok (a : A)
| Raise (e : exn)
| Timeout.
Arguments Ok {A} a.
Arguments Raise {A} e.
Arguments Timeout {A}.

(** ** Integer and float primitives *)

(** [int.from_bytes(data, byteorder='little')], unsigned. *)
Fixpoint int_from_bytes_little (data : bytes) : Z :=
  match data with
  | [] => 0
  | b :: rest => byte_val b + 256 * int_from_bytes_little rest
  end.

(** An integer as an exact (not rounded) binary number [m * 2^0]. *)
Definition exact_of_int (z : Z) : float :=
  match z with
  | Z0 => S754_zero false
  | Zpos p => S754_finite false p 0
  | Zneg p => S754_finite true p 0
  end.

(** [float(z)]: the integer rounded to the nearest binary64, ties to even. *)
Definition float_of_int (z : Z) : float := binary_normalize prec emax z 0 false.

(** IEEE division of two floats, as in [x / y] on Python floats
    (the divisor is not zero where the program divides). *)
Definition float_div (x y : float) : float := SFdiv prec emax x y.

(** [a / b] on two Python ints: true division.  The exact quotient is rounded
    once to the nearest binary64; a quotient that rounds beyond the largest
    finite float raises [OverflowError], a zero divisor [ZeroDivisionError]. *)
Definition int_truediv (a b : Z) : res pyval :=
  if b =? 0 then Raise (ZeroDivisionError "division by zero")
  else
    match SFdiv prec emax (exact_of_int a) (exact_of_int b) with
    | S754_infinity _ => Raise (OverflowError "integer division result too large for a float")
    | q => Ok (PyFloat q)
    end.

(** [float(v)] on a numeric value, as [Gauge.set] applies it. *)
Definition float_of_pyval (v : pyval) : res float :=
  match v with
  | PyFloat f => Ok f
  | PyInt z =>
      match float_of_int z with
      | S754_infinity _ => Raise (OverflowError "int too large to convert to float")
      | f => Ok f
      end
  end.

(** Exact comparison of a float with an integer: [g == a]. *)
Definition float_eq_int (g : float) (a : Z) : bool :=
  match g with
  | S754_zero _ => a =? 0
  | S754_finite s m e =>
      let sm := if s then Zneg m else Zpos m in
      if 0 <=? e then a =? sm * 2 ^ e else a * 2 ^ (- e) =? sm
  | _ => false
  end.

(** Python's [==] on numbers: an int and a float are compared by value. *)
Definition py_eq (x y : pyval) : bool :=
  match x, y with
  | PyInt a, PyInt b => a =? b
  | PyFloat f, PyFloat g => SFeqb f g
  | PyInt a, PyFloat g => float_eq_int g a
  | PyFloat f, PyInt b => float_eq_int f b
  end.

(** [data[i:j]] for [0 <= i <= j]: a slice never raises, it is cut at the end
    of the sequence. *)
Definition slice {A} (data : list A) (i j : nat) : list A :=
  firstn (j - i) (skipn i data).

(** ** The metrics registry

    [temperature] is a gauge with one label, [name]: a child per label value;
    [last_received] is a gauge without labels, which starts at [0.0]. *)
Record Registry := {
  temperature : gmap string float;
  last_received : float
}.

Definition empty_registry : Registry :=
  {| temperature := ∅; last_received := S754_zero false |}.

(** ** The command line: [argparse.Namespace]

    An option that is not given on the command line is [None]. *)
Record Namespace := {
  address : option string;
  probe1_name : option string;
  probe2_name : option string;
  debug : bool
}.

(** [str(x)] of an optional string, as [Gauge.labels] applies it to a label
    value. *)
Definition str (x : option string) : string :=
  match x with Some s => s | None => "None" end.

(** ** The BLE stack and the event loop, at their interface *)

(** A [BLEDevice], by its printed form. *)
Definition device := string.

Inductive action :=
| Discover
| FindDeviceByAddress (addr : option string)
| Connect (dev : device)
| Disconnect
| Services
| WriteGattChar (char : string) (data : bytes)
| StartNotify (char : string)
| StopNotify (char : string)
| IsConnected
| Sleep (seconds : Z).

(** What the trace keeps of a completed call. *)
Inductive outcome :=
| Returned
| ReturnedBool (b : bool)
| ReturnedDevice (d : option device)
| Raised (e : exn).

Inductive event :=
| EvLog (msg : string)
| EvCall (a : action) (o : outcome)
| EvNotification (now : float) (data : bytes).

(** The answer of the environment to an awaited call: its next state, the
    notifications (time of arrival and payload) that the peripheral pushed
    while the coroutine was suspended, and the result of the call. *)
Record reply (W A : Type) := {
  next : W;
  delivered : list (float * bytes);
  result : exn + A
}.
Arguments next {W A} r.
Arguments delivered {W A} r.
Arguments result {W A} r.

(** The library calls of [main], over a state [W] of the outside world. *)
Record Env (W : Type) := {
  discover : W → reply W (list (string * string));
  find_device_by_address : option string → W → reply W (option device);
  connect : device → W → reply W unit;
  disconnect : W → reply W unit;
  services : W → W * (exn + list (string * list string));
  write_gatt_char : string → bytes → W → reply W unit;
  start_notify : string → W → reply W unit;
  stop_notify : string → W → reply W unit;
  is_connected : W → W * (exn + bool);
  sleep : Z → W → reply W unit
}.
Arguments discover {W} e.
Arguments find_device_by_address {W} e.
Arguments connect {W} e.
Arguments disconnect {W} e.
Arguments services {W} e.
Arguments write_gatt_char {W} e.
Arguments start_notify {W} e.
Arguments stop_notify {W} e.
Arguments is_connected {W} e.
Arguments sleep {W} e.

(** ** Program state and the program monad *)

Record state (W : Type) := {
  world : W;                (* the BLE stack and the event loop *)
  clock : float;            (* [time.time()] *)
  registry : Registry;      (* the module-level gauges *)
  subscribed : bool;        (* [data_notify_handler] is registered *)
  trace : list event        (* what the program did so far *)
}.
Arguments world {W} s.
Arguments clock {W} s.
Arguments registry {W} s.
Arguments subscribed {W} s.
Arguments trace {W} s.

Definition M (W A : Type) : Type := state W → state W * res A.

Section Monad.
Context {W : Type}.

Definition ret {A} (a : A) : M W A := fun s => (s, Ok a).

Definition bind {A B} (m : M W A) (k : A → M W B) : M W B := fun s =>
  match m s with
  | (s', Ok a) => k a s'
  | (s', Raise e) => (s', Raise e)
  | (s', Timeout) => (s', Timeout)
  end.

Definition raise {A} (e : exn) : M W A := fun s => (s, Raise e).

Definition timeout {A} : M W A := fun s => (s, Timeout).

(** A pure computation that may raise. *)
Definition lift {A} (r : res A) : M W A := fun s => (s, r).

(** [try: m except <classes> as e: h e]. *)
Definition try_except {A} (m : M W A) (catches : exn → bool) (h : exn → M W A) : M W A :=
  fun s =>
    match m s with
    | (s', Raise e) => if catches e then h e s' else (s', Raise e)
    | r => r
    end.

(** [body] inside a context manager whose exit runs [exit]: on the way out,
    whether [body] returned or raised; the exception of [body] then goes
    on, unless [exit] raised one of its own. *)
Definition leaving {A} (body : M W A) (exit : M W unit) : M W A := fun s =>
  match body s with
  | (s', Ok a) => bind exit (fun _ => ret a) s'
  | (s', Raise e) => bind exit (fun _ => raise e) s'
  | (s', Timeout) => (s', Timeout)
  end.

Definition modify (f : state W → state W) : M W unit := fun s => (f s, Ok tt).
End Monad.

#[global] Instance M_ret {W} : MRet (M W) := @ret W.
#[global] Instance M_bind {W} : MBind (M W) := fun A B k m => bind m k.

(** ** The program: [main.py] *)

Definition data_characteristic : string := "0000fff4-0000-1000-8000-00805f9b34fb".
Definition settings_characteristic : string := "0000fff5-0000-1000-8000-00805f9b34fb".

Definition byte_list (l : list N) : bytes :=
  map (fun n => match Byte.of_N n with Some b => b | None => Byte.x00 end) l.

Section Program.
Context {W : Type}.
(** The global [args], set once at start-up. *)
Variable args : Namespace.

Definition add_event (ev : event) (s : state W) : state W :=
  {| world := world s; clock := clock s; registry := registry s;
     subscribed := subscribed s; trace := trace s ++ [ev] |}.

Definition set_registry (r : Registry) (s : state W) : state W :=
  {| world := world s; clock := clock s; registry := r;
     subscribed := subscribed s; trace := trace s |}.

Definition set_subscribed (b : bool) (s : state W) : state W :=
  {| world := world s; clock := clock s; registry := registry s;
     subscribed := b; trace := trace s |}.

Definition set_world (w : W) (s : state W) : state W :=
  {| world := w; clock := clock s; registry := registry s;
     subscribed := subscribed s; trace := trace s |}.

Definition set_clock (t : float) (s : state W) : state W :=
  {| world := world s; clock := t; registry := registry s;
     subscribed := subscribed s; trace := trace s |}.

(** [logger.info], [logger.error], [logger.exception] and [print]: a line
    of output, kept by its format string.  Writing a line is taken to
    succeed: a standard output that is closed, or that cannot encode the
    text, is outside the model. *)
Definition log (msg : string) : M W unit := modify (add_event (EvLog msg)).

(** *** The gauges (prometheus_client) *)

(** [temperature.labels(name=label)]: the child of that label value,
    created at [0.0] when it is new. *)
Definition gauge_labels (label : string) : M W unit :=
  modify (fun s =>
    let r := registry s in
    match temperature r !! label with
    | Some _ => s
    | None => set_registry {| temperature := <[label := S754_zero false]> (temperature r);
                              last_received := last_received r |} s
    end).

(** [child.set(value)], which stores [float(value)]. *)
Definition gauge_set (label : string) (value : pyval) : M W unit :=
  f ← lift (float_of_pyval value);
  modify (fun s =>
    let r := registry s in
    set_registry {| temperature := <[label := f]> (temperature r);
                    last_received := last_received r |} s).

(** [last_received.set_to_current_time()]. *)
Definition set_to_current_time : M W unit :=
  modify (fun s =>
    let r := registry s in
    set_registry {| temperature := temperature r; last_received := clock s |} s).

(** *** [bytes_to_temperature] *)
Definition bytes_to_temperature (data : bytes) : M W pyval :=
  let raw := int_from_bytes_little data in
  if raw =? 0xffff then mret (PyInt 0)
  else lift (int_truediv raw 10).

(** *** [data_notify_handler] *)
Definition data_notify_handler (characteristic : string) (data : bytes) : M W unit :=
  log "%s: %r";;
  temp1 ← bytes_to_temperature (slice data 0 2);
  temp2 ← bytes_to_temperature (slice data 2 4);
  gauge_labels (str (probe1_name args));; gauge_set (str (probe1_name args)) temp1;;
  gauge_labels (str (probe2_name args));; gauge_set (str (probe2_name args)) temp2;;
  set_to_current_time;;
  log "t1: %f - t2: %f".

(** *** Awaiting the library *)

(** One notification reaches the callback registered with [start_notify]:
    the handler runs at the time of arrival; an exception it raises stays
    in the event loop. *)
Definition notify (n : float * bytes) (s : state W) : state W :=
  if subscribed s then
    fst (data_notify_handler data_characteristic (snd n)
           (add_event (EvNotification (fst n) (snd n)) (set_clock (fst n) s)))
  else s.

(** [await call]: the coroutine is suspended, the event loop runs the
    callbacks of the notifications that arrive meanwhile, then the call
    completes. *)
Definition await {A} (a : action) (summary : A → outcome) (call : W → reply W A) : M W A :=
  fun s =>
    let r := call (world s) in
    let s1 := fold_left (fun s n => notify n s) (delivered r) (set_world (next r) s) in
    match result r with
    | inl e => (add_event (EvCall a (Raised e)) s1, Raise e)
    | inr v => (add_event (EvCall a (summary v)) s1, Ok v)
    end.

(** A call or property read that does not suspend the coroutine. *)
Definition invoke {A} (a : action) (summary : A → outcome) (call : W → W * (exn + A)) : M W A :=
  fun s =>
    let '(w, r) := call (world s) in
    match r with
    | inl e => (add_event (EvCall a (Raised e)) (set_world w s), Raise e)
    | inr v => (add_event (EvCall a (summary v)) (set_world w s), Ok v)
    end.

Fixpoint for_each {A} (l : list A) (body : A → M W unit) : M W unit :=
  match l with
  | [] => mret tt
  | x :: l' => body x;; for_each l' body
  end.

Variable env : Env W.

Definition returned {A} (_ : A) : outcome := Returned.

Definition dashes (n : nat) : string := String.concat "" (repeat "-"%string n).

(** [len] of a [str]: its code points.  A string is kept as its UTF-8
    bytes, of which those of the form [10xxxxxx] continue a code point. *)
Definition is_continuation (c : Ascii.ascii) : bool :=
  let n := Ascii.N_of_ascii c in ((128 <=? n) && (n <? 192))%N.

Fixpoint code_points (text : string) : nat :=
  match text with
  | EmptyString => O
  | String c text' =>
      if is_continuation c then code_points text' else S (code_points text')
  end.

(** *** [scan_devices] *)
Definition scan_devices : M W unit :=
  log "scanning devices for 5 seconds, please wait...";;
  devices ← await Discover returned (discover env);
  for_each devices (fun da =>
    log (fst da);;
    log (snd da);;
    log (dashes (code_points (fst da)))).

Definition use_celsius : bytes := byte_list [0x02; 0x00; 0x00; 0x00; 0x00; 0x00]%N.
Definition enable_realtime : bytes := byte_list [0x0B; 0x01; 0x00; 0x00; 0x00; 0x00]%N.

Definition Disconnected : exn := PyException "Exception" ["Disconnected"].

(** *** [main] *)

(** Lines 112-115: the liveness poll, [while True]. *)
Fixpoint liveness_loop (fuel : nat) : M W unit :=
  match fuel with
  | O => timeout
  | S fuel' =>
      await (Sleep 5) returned (sleep env 5);;
      connected ← invoke IsConnected ReturnedBool (is_connected env);
      (if negb connected then raise Disconnected else mret tt);;
      liveness_loop fuel'
  end.

(** Lines 111-118: poll until interrupted from the keyboard, then
    unsubscribe. *)
Definition streaming (fuel : nat) : M W unit :=
  try_except (liveness_loop fuel) is_KeyboardInterrupt (fun _ => mret tt);;
  await (StopNotify data_characteristic) returned (stop_notify env data_characteristic);;
  modify (set_subscribed false).

(** Lines 94-118: the body of [async with]. *)
Definition session (fuel : nat) : M W unit :=
  log "Connected";;
  svcs ← invoke Services returned (services env);
  for_each svcs (fun svc =>
    log "service";;
    for_each (snd svc) (fun _ => log "> char"));;
  await (WriteGattChar settings_characteristic use_celsius) returned
        (write_gatt_char env settings_characteristic use_celsius);;
  await (WriteGattChar settings_characteristic enable_realtime) returned
        (write_gatt_char env settings_characteristic enable_realtime);;
  log "Starting data notify";;
  await (StartNotify data_characteristic) returned (start_notify env data_characteristic);;
  modify (set_subscribed true);;
  streaming fuel.

(** [__aexit__] of the client: disconnect; the callbacks of a closed
    connection are gone. *)
Definition aexit : M W unit :=
  await Disconnect returned (disconnect env);;
  modify (set_subscribed false).

(** Line 93: [async with BleakClient(device) as client: body].  The
    connection is closed on the way out, whether the body returned or
    raised; the exception of the body then goes on, unless closing raised
    one of its own. *)
Definition async_with_client (dev : device) (body : M W unit) : M W unit :=
  await (Connect dev) returned (connect env dev);;
  leaving body aexit.

(** Lines 81-118: the body of the outer [try]. *)
Definition attempt (fuel : nat) : M W unit :=
  log "starting scan...";;
  scan_devices;;
  found ← await (FindDeviceByAddress (address args)) ReturnedDevice
            (find_device_by_address env (address args));
  match found with
  | None => raise (PyException "Exception"
                     ["could not find device with address '%s'"; str (address args)])
  | Some dev =>
      log "connecting to device...";;
      async_with_client dev (session fuel)
  end.

(** Lines 119-123: [except Exception as e]. *)
Definition retry (e : exn) : M W unit :=
  log "Exception in main loop";;
  log "%s";;
  log "Retrying in 5 seconds...";;
  await (Sleep 5) returned (sleep env 5).

(** Lines 80-123: one turn of the outer loop. *)
Definition main_iteration (fuel : nat) : M W unit :=
  try_except (attempt fuel) is_Exception retry.

(** Lines 78-123: [while True].  The step budget bounds the turns of this
    loop, and what is left of it bounds the polls of the turn: every finite
    part of an execution is within some budget. *)
Fixpoint main (fuel : nat) : M W unit :=
  match fuel with
  | O => timeout
  | S fuel' => main_iteration fuel';; main fuel'
  end.
End Program.

(** * Specification

    The notions the properties are stated with. *)

(** A state before anything ran: empty registry, no subscription. *)
Definition initial_state {W} (w : W) : state W :=
  {| world := w; clock := S754_zero false; registry := empty_registry;
     subscribed := false; trace := [] |}.

(** The state with the gauge of [label] set to [f]. *)
Definition set_temperature {W} (label : string) (f : float) (s : state W) : state W :=
  set_registry {| temperature := <[label := f]> (temperature (registry s));
                  last_received := last_received (registry s) |} s.

(** The state the handler leaves: both gauges and the timestamp written, two
    lines logged. *)
Definition handled {W} (args : Namespace) (f1 f2 : float) (s : state W) : state W :=
  {| world := world s; clock := clock s;
     registry := {| temperature := <[str (probe2_name args) := f2]>
                                     (<[str (probe1_name args) := f1]>
                                        (temperature (registry s)));
                    last_received := clock s |};
     subscribed := subscribed s;
     trace := trace s ++ [EvLog "%s: %r"; EvLog "t1: %f - t2: %f"] |}.

(** Two command lines: without probe names, and with two of them. *)
Definition no_names : Namespace :=
  {| address := Some "AA:BB:CC:DD:EE:FF"; probe1_name := None; probe2_name := None;
     debug := false |}.

Definition two_names : Namespace :=
  {| address := Some "AA:BB:CC:DD:EE:FF"; probe1_name := Some "meat";
     probe2_name := Some "grill"; debug := false |}.

(** The floats nearest to 0.1, 0.2 and 0.5. *)
Definition f0_1 : float := S754_finite false 7205759403792794 (-56).
Definition f0_2 : float := S754_finite false 7205759403792794 (-55).
Definition f0_5 : float := S754_finite false 4503599627370496 (-53).

(** ** The library calls of a run *)

#[global] Instance byte_eq_decision : EqDecision Byte.byte := Byte.byte_eq_dec.

(** The calls in a list of events, with their outcomes: what is left when the
    log lines and the notification callbacks are taken out. *)
Fixpoint calls (evs : list event) : list (action * outcome) :=
  match evs with
  | [] => []
  | EvCall a o :: evs' => (a, o) :: calls evs'
  | _ :: evs' => calls evs'
  end.

(** The events that a piece of the program added to the trace. *)
Definition new_events {W} (before after : state W) : list event :=
  skipn (length (trace before)) (trace after).

(** ** The supervisor as a state machine

    The states of the connection supervisor, told from the calls made so
    far. *)
Inductive config_step := ListServices | SelectCelsius | EnableRealtime.

Inductive phase :=
| Discovering                        (* head of the loop: scan *)
| Resolving                          (* scanned: resolve the address *)
| Connecting (dev : device)          (* open the connection *)
| Configuring (step : config_step)   (* connected: services, then two writes *)
| Subscribing                        (* configured: start_notify *)
| Streaming                          (* subscribed: idle for 5 seconds *)
| Polling                            (* then read the liveness flag *)
| Unsubscribing                      (* interrupted from the keyboard: stop_notify *)
| Closing (pending : option exn)     (* leaving the connection: disconnected or failed *)
| RetryDelay                         (* failure caught: wait 5 seconds *)
| Halted (e : exn).                  (* an exception left [main] *)

(** After an exception outside of the inner handlers: caught by
    [except Exception], or out of [main]. *)
Definition caught_or_halted (e : exn) : phase :=
  if is_Exception e then RetryDelay else Halted e.

(** After an exception in the liveness loop. *)
Definition interrupted (e : exn) : phase :=
  if is_KeyboardInterrupt e then Unsubscribing else Closing (Some e).

Definition sup_step (q : phase) (c : action * outcome) : option phase :=
  match q, c with
  | Discovering, (Discover, Returned) => Some Resolving
  | Discovering, (Discover, Raised e) => Some (caught_or_halted e)
  | Resolving, (FindDeviceByAddress _, ReturnedDevice (Some dev)) => Some (Connecting dev)
  | Resolving, (FindDeviceByAddress _, ReturnedDevice None) => Some RetryDelay
  | Resolving, (FindDeviceByAddress _, Raised e) => Some (caught_or_halted e)
  | Connecting dev, (Connect dev', Returned) =>
      if decide (dev' = dev) then Some (Configuring ListServices) else None
  | Connecting dev, (Connect dev', Raised e) =>
      if decide (dev' = dev) then Some (caught_or_halted e) else None
  | Configuring ListServices, (Services, Returned) => Some (Configuring SelectCelsius)
  | Configuring SelectCelsius, (WriteGattChar char data, Returned) =>
      if decide (char = settings_characteristic ∧ data = use_celsius)
      then Some (Configuring EnableRealtime) else None
  | Configuring EnableRealtime, (WriteGattChar char data, Returned) =>
      if decide (char = settings_characteristic ∧ data = enable_realtime)
      then Some Subscribing else None
  | Configuring ListServices, (Services, Raised e) => Some (Closing (Some e))
  | Configuring SelectCelsius, (WriteGattChar char data, Raised e) =>
      if decide (char = settings_characteristic ∧ data = use_celsius)
      then Some (Closing (Some e)) else None
  | Configuring EnableRealtime, (WriteGattChar char data, Raised e) =>
      if decide (char = settings_characteristic ∧ data = enable_realtime)
      then Some (Closing (Some e)) else None
  | Subscribing, (StartNotify char, Returned) =>
      if decide (char = data_characteristic) then Some Streaming else None
  | Subscribing, (StartNotify char, Raised e) =>
      if decide (char = data_characteristic) then Some (Closing (Some e)) else None
  | Streaming, (Sleep 5, Returned) => Some Polling
  | Streaming, (Sleep 5, Raised e) => Some (interrupted e)
  | Polling, (IsConnected, ReturnedBool true) => Some Streaming
  | Polling, (IsConnected, ReturnedBool false) => Some (Closing (Some Disconnected))
  | Polling, (IsConnected, Raised e) => Some (interrupted e)
  | Unsubscribing, (StopNotify char, Returned) =>
      if decide (char = data_characteristic) then Some (Closing None) else None
  | Unsubscribing, (StopNotify char, Raised e) =>
      if decide (char = data_characteristic) then Some (Closing (Some e)) else None
  | Closing None, (Disconnect, Returned) => Some Discovering
  | Closing (Some e), (Disconnect, Returned) => Some (caught_or_halted e)
  | Closing _, (Disconnect, Raised e) => Some (caught_or_halted e)
  | RetryDelay, (Sleep 5, Returned) => Some Discovering
  | RetryDelay, (Sleep 5, Raised e) => Some (Halted e)
  | _, _ => None
  end.

(** The state after a history of calls; [None] when the history is not one
    of the machine. *)
Fixpoint sup_run (q : phase) (history : list (action * outcome)) : option phase :=
  match history with
  | [] => Some q
  | c :: history' =>
      match sup_step q c with
      | Some q' => sup_run q' history'
      | None => None
      end
  end.

(** The states in which a turn of the outer loop can be cut by the end of
    the step budget: the heads of the two loops. *)
Definition loop_head (q : phase) : Prop := q = Discovering ∨ q = Streaming.

(** ** The registry, from the notifications handled *)

(** The registry after the handler ran on [data] at time [now]. *)
Definition registry_after (args : Namespace) (now : float) (data : bytes) (r : Registry)
  : Registry :=
  registry (fst (data_notify_handler args data_characteristic data
                   {| world := tt; clock := now; registry := r;
                      subscribed := true; trace := [] |})).

(** The registry after a list of events: only a notification changes it. *)
Fixpoint replay (args : Namespace) (evs : list event) (r : Registry) : Registry :=
  match evs with
  | [] => r
  | EvNotification now data :: evs' => replay args evs' (registry_after args now data r)
  | _ :: evs' => replay args evs' r
  end.

(** No notification among the events. *)
Fixpoint quiet (evs : list event) : bool :=
  match evs with
  | [] => true
  | EvNotification _ _ :: _ => false
  | _ :: evs' => quiet evs'
  end.

(** ** Where a piece of the supervisor leaves the machine *)

(** The liveness loop: it does not return; it is left by an exception. *)
Definition after_liveness (q : phase) (r : res unit) : Prop :=
  match r with
  | Ok _ => False
  | Raise e => q = interrupted e
  | Timeout => q = Streaming
  end.

(** The body of the connection: the connection is then closed. *)
Definition after_session (q : phase) (r : res unit) : Prop :=
  match r with
  | Ok _ => q = Closing None
  | Raise e => q = Closing (Some e)
  | Timeout => q = Streaming
  end.

(** The body of the outer [try]. *)
Definition after_attempt (q : phase) (r : res unit) : Prop :=
  match r with
  | Ok _ => q = Discovering
  | Raise e => q = caught_or_halted e
  | Timeout => q = Streaming
  end.

(** One turn of the outer loop. *)
Definition after_iteration (q : phase) (r : res unit) : Prop :=
  match r with
  | Ok _ => q = Discovering
  | Raise e => q = Halted e
  | Timeout => q = Streaming
  end.

(** [main]: it does not return; it ends by an exception that leaves it, or
    goes on beyond the step budget. *)
Definition after_main (q : phase) (r : res unit) : Prop :=
  match r with
  | Ok _ => False
  | Raise e => q = Halted e
  | Timeout => loop_head q
  end.

(** ** What follows a failure, in the calls of a run *)

(** The 5-second delay; when it returns, the next call, if the run goes that
    far, is the scan of a new turn. *)
Definition delay_then_discover (post : list (action * outcome)) : Prop :=
  ∃ o rest, post = (Sleep 5, o) :: rest ∧
    (o = Returned → rest = [] ∨ ∃ o' rest', rest = (Discover, o') :: rest').

(** The connection is closed first; then the delay, unless closing itself was
    cut by an exception that is not an [Exception], which ends the run. *)
Definition closed_then_retried (post : list (action * outcome)) : Prop :=
  ∃ o post', post = (Disconnect, o) :: post' ∧
    ((∃ e, o = Raised e ∧ is_Exception e = false ∧ post' = []) ∨ delay_then_discover post').

(** The states in which a run can stop. *)
Definition resting (q : phase) : Prop :=
  match q with
  | Discovering | Streaming | Halted _ => True
  | _ => False
  end.

(** ** A scripted environment

    The world is the number of calls answered so far.  The device is found at
    once; the first connection fails, the later ones succeed; the peripheral
    pushes the reading [01 00 02 00] during every sleep; the liveness flag
    always reads not connected. *)
Definition demo_device : device := "AA:BB:CC:DD:EE:FF: iBBQ".

Definition demo_error : exn := PyException "BleakError" ["failed to connect"].

Definition answer {A} (w : nat) (r : exn + A) : reply nat A :=
  {| next := S w; delivered := []; result := r |}.

Definition demo_env : Env nat :=
  {| discover := fun w => answer w (inr [(demo_device, "AdvertisementData"%string)]);
     find_device_by_address := fun _ w => answer w (inr (Some demo_device));
     connect := fun _ w => answer w (if Nat.ltb w 3 then inl demo_error else inr tt);
     disconnect := fun w => answer w (inr tt);
     services := fun w => (S w, inr [("service"%string, ["char"%string])]);
     write_gatt_char := fun _ _ w => answer w (inr tt);
     start_notify := fun _ w => answer w (inr tt);
     stop_notify := fun _ w => answer w (inr tt);
     is_connected := fun w => (S w, inr false);
     sleep := fun _ w =>
       {| next := S w;
          delivered := [(f0_5, [Byte.x01; Byte.x00; Byte.x02; Byte.x00])];
          result := inr tt |} |}.

(** Three turns of the loop in that environment. *)
Definition demo_fuel : nat := 3.

Definition demo_run : state nat * res unit :=
  main two_names demo_env demo_fuel (initial_state 0%nat).

Definition demo_events : list event := new_events (initial_state 0%nat) (fst demo_run).

Definition demo_calls : list (action * outcome) := calls demo_events.

(** ** The program against the machine *)

(** [follows args m q Q]: from the state [q] of the machine, whatever the
    program state and the answers of the environment, the calls of [m] are
    steps of the machine, the registry changes by the notifications handled
    and by nothing else, and the state reached and the outcome satisfy [Q]. *)
Definition follows {W A} (args : Namespace) (m : M W A) (q : phase)
           (Q : phase → res A → Prop) : Prop :=
  ∀ s, ∃ evs q',
    trace (fst (m s)) = trace s ++ evs ∧
    registry (fst (m s)) = replay args evs (registry s) ∧
    sup_run q (calls evs) = Some q' ∧
    Q q' (snd (m s)).

(** A piece of the program that only writes log lines. *)
Definition silent {W} (m : M W unit) : Prop :=
  ∀ s, ∃ evs,
    snd (m s) = Ok tt ∧ trace (fst (m s)) = trace s ++ evs ∧
    registry (fst (m s)) = registry s ∧ calls evs = [] ∧ quiet evs = true.

(** ** Further notions: readings and payloads *)

(** A payload as the handler reads it: the first four bytes, a missing byte
    read as zero. *)
Definition normalised (data : bytes) : bytes := firstn 4 (data ++ repeat Byte.x00 4).

(** A float that is a reading: [+0.0] or finite and positive; not NaN, not
    infinite, not negative. *)
Definition is_reading (f : float) : Prop :=
  match f with
  | S754_zero false | S754_finite false _ _ => True
  | _ => False
  end.

(** Ten times a float, rounded to the nearest integer (half up): a
    temperature back in tenths of a degree. *)
Definition tenths (q : float) : Z :=
  match q with
  | S754_finite s m e =>
      let t := if 0 <=? e then 10 * Z.pos m * 2 ^ e
               else (20 * Z.pos m + 2 ^ (- e)) / 2 ^ (1 - e) in
      if s then - t else t
  | _ => 0
  end.

(** ** Further notions: connections and calls *)

(** What a call does to the number of open connections: a completed connect
    opens one, a disconnect closes it. *)
Definition opened (c : action * outcome) : Z :=
  match c with
  | (Connect _, Returned) => 1
  | (Disconnect, _) => -1
  | _ => 0
  end.

(** The connections opened and not yet closed by a history of calls. *)
Fixpoint open_connections (h : list (action * outcome)) : Z :=
  match h with
  | [] => 0
  | c :: h' => opened c + open_connections h'
  end.

(** The states of the machine in which the connection is open. *)
Definition connected_in (q : phase) : Z :=
  match q with
  | Configuring _ | Subscribing | Streaming | Polling | Unsubscribing | Closing _ => 1
  | _ => 0
  end.

(** A call that resolves a device resolves the configured address. *)
Definition resolves_configured (args : Namespace) (c : action * outcome) : Prop :=
  match c with
  | (FindDeviceByAddress addr, _) => addr = address args
  | _ => True
  end.

(** [only_calls P m]: whatever the program state and the environment, every
    call that [m] makes satisfies [P]. *)
Definition only_calls {W A} (P : action * outcome → Prop) (m : M W A) : Prop :=
  ∀ s, ∃ evs, trace (fst (m s)) = trace s ++ evs ∧ Forall P (calls evs).

(** A second scripted environment: every call succeeds and the liveness flag
    reads connected; the tenth call, the second sleep of the first
    connection, is interrupted from the keyboard. *)
Definition interrupt_env : Env nat :=
  {| discover := fun w => answer w (inr [(demo_device, "AdvertisementData"%string)]);
     find_device_by_address := fun _ w => answer w (inr (Some demo_device));
     connect := fun _ w => answer w (inr tt);
     disconnect := fun w => answer w (inr tt);
     services := fun w => (S w, inr [("service"%string, ["char"%string])]);
     write_gatt_char := fun _ _ w => answer w (inr tt);
     start_notify := fun _ w => answer w (inr tt);
     stop_notify := fun _ w => answer w (inr tt);
     is_connected := fun w => (S w, inr true);
     sleep := fun _ w => answer w (if Nat.eqb w 9 then inl KeyboardInterrupt else inr tt) |}.

Definition interrupt_run : state nat * res unit :=
  main two_names interrupt_env demo_fuel (initial_state 0%nat).

Definition interrupt_calls : list (action * outcome) :=
  calls (new_events (initial_state 0%nat) (fst interrupt_run)).

(** ** The outer loop goes on

    [begins_with a m]: whatever the state, the first call of [m] is [a]. *)
Definition begins_with {W A} (a : action) (m : M W A) : Prop :=
  ∀ s, ∃ evs o rest, trace (fst (m s)) = trace s ++ evs ∧ calls evs = (a, o) :: rest.

(** [continues m m']: [m'] runs as [m] does wherever [m] is not cut by the
    end of the step budget. *)
Definition continues {W A} (m m' : M W A) : Prop :=
  ∀ s, snd (m s) ≠ Timeout → m' s = m s.

(** Any call but a read of the liveness flag. *)
Definition not_a_poll (c : action * outcome) : Prop := fst c ≠ IsConnected.

(** After the connection is lost: it is closed, then the 5-second delay,
    then the scan of a new turn.  An exception that is not an [Exception],
    raised by the close, ends the run; so does an exception raised by the
    delay. *)
Definition closed_then_scanned (post : list (action * outcome)) : Prop :=
  ∃ o post', post = (Disconnect, o) :: post' ∧
    ((∃ e, o = Raised e ∧ is_Exception e = false ∧ post' = []) ∨
     ∃ o' rest, post' = (Sleep 5, o') :: rest ∧
       (o' = Returned → ∃ o'' rest', rest = (Discover, o'') :: rest')).

(** ** A retry delay that fails

    The device is found, the connection fails with a [BleakError], and the
    sleep of the [except] branch raises a [RuntimeError]. *)
Definition delay_error : exn := PyException "RuntimeError" ["no running event loop"].

Definition failing_delay_env : Env nat :=
  {| discover := fun w => answer w (inr [(demo_device, "AdvertisementData"%string)]);
     find_device_by_address := fun _ w => answer w (inr (Some demo_device));
     connect := fun _ w => answer w (inl demo_error);
     disconnect := fun w => answer w (inr tt);
     services := fun w => (S w, inr []);
     write_gatt_char := fun _ _ w => answer w (inr tt);
     start_notify := fun _ w => answer w (inr tt);
     stop_notify := fun _ w => answer w (inr tt);
     is_connected := fun w => (S w, inr true);
     sleep := fun _ w => answer w (inl delay_error) |}.

Definition failing_delay_run : state nat * res unit :=
  main two_names failing_delay_env demo_fuel (initial_state 0%nat).

(** One turn in the scripted environment: the connection fails, the delay
    returns, and the budget ends. *)
Definition short_fuel : nat := 1.

Definition short_run : state nat * res unit :=
  main two_names demo_env short_fuel (initial_state 0%nat).

Definition short_calls : list (action * outcome) :=
  calls (new_events (initial_state 0%nat) (fst short_run)).

(** * Properties *)

(** ** Arithmetic of the decoder *)

Lemma byte_val_range (b : Byte.byte) : 0 <= byte_val b <= 255.
Proof.
  unfold byte_val. pose proof (Byte.to_N_bounded b). lia.
Qed.

Lemma int_from_bytes_little_range (data : bytes) :
  0 <= int_from_bytes_little data < 256 ^ Z.of_nat (length data).
Proof.
  induction data as [|b rest IH].
  - simpl. lia.
  - cbn [int_from_bytes_little length]. rewrite Nat2Z.inj_succ, Z.pow_succ_r by lia.
    pose proof (byte_val_range b). lia.
Qed.

(** *** Rounding to binary64 never overflows below [2^1024] *)

Lemma digits2_pos_size (p : positive) : digits2_pos p = Pos.size p.
Proof. induction p; simpl; congruence. Qed.

Lemma Zdigits2_nonneg (m : Z) : 0 <= Zdigits2 m.
Proof. destruct m; simpl; lia. Qed.

Lemma Zdigits2_gt (m : Z) : 0 <= m → m < 2 ^ Zdigits2 m.
Proof.
  destruct m as [|p|p]; simpl; [lia| |lia]. intros _.
  rewrite digits2_pos_size. pose proof (Pos.size_gt p) as H.
  apply Pos2Z.pos_lt_pos in H. rewrite Pos2Z.inj_pow in H. exact H.
Qed.

Lemma Zdigits2_le_pow (m : Z) : 0 < m → 2 ^ (Zdigits2 m - 1) <= m.
Proof.
  destruct m as [|p|p]; [lia| |lia]. intros _. simpl.
  rewrite digits2_pos_size. pose proof (Pos.size_le p) as H.
  apply Pos2Z.pos_le_pos in H. rewrite Pos2Z.inj_pow in H.
  change (Z.pos p~0) with (2 * Z.pos p) in H.
  replace (Z.pos (Pos.size p)) with (Z.succ (Z.pos (Pos.size p) - 1)) in H by lia.
  rewrite Z.pow_succ_r in H by lia. lia.
Qed.

Lemma Zdigits2_le (m k : Z) : 0 <= m → 0 <= k → m < 2 ^ k → Zdigits2 m <= k.
Proof.
  intros Hm Hk Hlt.
  destruct (Z.eq_dec m 0) as [->|Hne]; [simpl; lia|].
  pose proof (Zdigits2_le_pow m ltac:(lia)) as Hlo.
  assert (H : 2 ^ (Zdigits2 m - 1) < 2 ^ k) by lia.
  apply Z.pow_lt_mono_r_iff in H; lia.
Qed.

Lemma shr_1_m (r : shr_record) : 0 <= shr_m r → shr_m (shr_1 r) = shr_m r / 2.
Proof.
  destruct r as [m b c]. cbn [shr_m]. intros Hm.
  destruct m as [|[p|p|]|p]; cbn [shr_1 shr_m]; try lia; try reflexivity.
  - change (Z.pos p~1) with (2 * Z.pos p + 1).
    apply (Z.div_unique_pos _ _ _ 1); lia.
  - change (Z.pos p~0) with (2 * Z.pos p).
    apply (Z.div_unique_pos _ _ _ 0); lia.
Qed.

Lemma iter_shr_1_m (n : positive) (r : shr_record) :
  0 <= shr_m r → shr_m (SpecFloat.iter_pos shr_1 n r) = shr_m r / 2 ^ Z.pos n.
Proof.
  revert r. induction n as [n IH|n IH|]; intros r Hr; cbn [SpecFloat.iter_pos].
  - assert (H1 : 0 <= shr_m (shr_1 r)) by (rewrite shr_1_m by lia; apply Z.div_pos; lia).
    assert (H2 : 0 <= shr_m (SpecFloat.iter_pos shr_1 n (shr_1 r))).
    { rewrite IH by lia. apply Z.div_pos; lia. }
    rewrite IH, IH, shr_1_m by lia.
    rewrite !Z.div_div by lia. f_equal.
    replace (Z.pos n~1) with (Z.succ (Z.pos n + Z.pos n)) by lia.
    rewrite Z.pow_succ_r, Z.pow_add_r by lia. lia.
  - assert (H1 : 0 <= shr_m (SpecFloat.iter_pos shr_1 n r)).
    { rewrite IH by lia. apply Z.div_pos; lia. }
    rewrite IH, IH by lia.
    rewrite Z.div_div by lia. f_equal.
    replace (Z.pos n~0) with (Z.pos n + Z.pos n) by lia.
    rewrite Z.pow_add_r by lia. lia.
  - rewrite shr_1_m by lia. reflexivity.
Qed.

Lemma shr_record_of_loc_m (m : Z) (l : location) : shr_m (shr_record_of_loc m l) = m.
Proof. destruct l as [|[| |]]; reflexivity. Qed.

(** Shifting to the format's exponent: the new exponent, and the shifted
    mantissa. *)
Lemma shr_fexp_spec (m e : Z) (l : location) :
  0 <= m →
  let e1 := Z.max e (fexp prec emax (Zdigits2 m + e)) in
  snd (shr_fexp prec emax m e l) = e1 ∧
  shr_m (fst (shr_fexp prec emax m e l)) = m / 2 ^ (e1 - e).
Proof.
  intros Hm e1. unfold shr_fexp, shr.
  destruct (fexp prec emax (Zdigits2 m + e) - e) as [|n|n] eqn:Hn; cbn [fst snd].
  - replace (e1 - e) with 0 by lia. rewrite shr_record_of_loc_m, Z.div_1_r. lia.
  - rewrite iter_shr_1_m by (rewrite shr_record_of_loc_m; lia).
    rewrite shr_record_of_loc_m. replace (e1 - e) with (Z.pos n) by lia. lia.
  - replace (e1 - e) with 0 by lia. rewrite shr_record_of_loc_m, Z.div_1_r. lia.
Qed.

Lemma round_nearest_even_range (m : Z) (l : location) :
  m <= round_nearest_even m l <= m + 1.
Proof.
  destruct l as [|[| |]]; cbn [round_nearest_even]; try lia.
  destruct (Z.even m); lia.
Qed.

Lemma div_pow2_lt (m K n : Z) :
  0 <= m < 2 ^ K → 0 <= K → 0 <= n → m / 2 ^ n < 2 ^ Z.max (K - n) 0.
Proof.
  intros Hm HK Hn.
  destruct (Z_le_gt_dec n K) as [Hle|Hgt].
  - replace (Z.max (K - n) 0) with (K - n) by lia.
    apply Z.div_lt_upper_bound; [lia|].
    rewrite <- Z.pow_add_r by lia. replace (n + (K - n)) with K by lia. lia.
  - replace (Z.max (K - n) 0) with 0 by lia.
    rewrite Z.div_small; [simpl; lia|].
    split; [lia|]. apply Z.lt_le_trans with (2 ^ K); [lia|].
    apply Z.pow_le_mono_r; lia.
Qed.

(** A mantissa below [2^K] at exponent [e], with [K + e <= 1023], rounds to a
    finite float or to zero. *)
Lemma binary_round_aux_no_overflow (sx : bool) (m e K : Z) (l : location) :
  0 <= m < 2 ^ K → 0 <= K → e <= 971 → K + e <= 1023 →
  ∀ s, binary_round_aux prec emax sx m e l ≠ S754_infinity s.
Proof.
  intros Hm HK He HKe s. unfold binary_round_aux.
  pose proof (shr_fexp_spec m e l ltac:(lia)) as [He1 Hm1].
  destruct (shr_fexp prec emax m e l) as [mrs1 e1]. cbn [fst snd] in He1, Hm1.
  rewrite <- He1 in Hm1.
  pose proof (Zdigits2_le m K ltac:(lia) HK ltac:(lia)) as HD.
  pose proof (Zdigits2_nonneg m) as HD0.
  assert (Hfe : fexp prec emax (Zdigits2 m + e) <= Z.max (K + e - 53) (-1074)).
  { unfold fexp, SpecFloat.emin, prec, emax. lia. }
  assert (Hfe0 : -1074 <= fexp prec emax (Zdigits2 m + e)).
  { unfold fexp, SpecFloat.emin, prec, emax. lia. }
  assert (Hm1lo : 0 <= shr_m mrs1).
  { rewrite Hm1. apply Z.div_pos; [lia|]. apply Z.pow_pos_nonneg; lia. }
  assert (Hm1hi : shr_m mrs1 < 2 ^ Z.max (K - (e1 - e)) 0).
  { rewrite Hm1. apply div_pow2_lt; lia. }
  set (m2 := round_nearest_even (shr_m mrs1) (loc_of_shr_record mrs1)).
  pose proof (round_nearest_even_range (shr_m mrs1) (loc_of_shr_record mrs1)) as Hr.
  fold m2 in Hr.
  pose proof (shr_fexp_spec m2 e1 loc_Exact ltac:(lia)) as [He2 _].
  destruct (shr_fexp prec emax m2 e1 loc_Exact) as [mrs2 e2]. cbn [snd] in He2.
  assert (HD2 : Zdigits2 m2 <= Z.max (K - (e1 - e)) 0 + 1).
  { apply Zdigits2_le; [lia|lia|].
    rewrite Z.pow_add_r by lia. change (2 ^ 1) with 2. lia. }
  assert (He2' : e2 <= 971).
  { rewrite He2. unfold fexp, SpecFloat.emin, prec, emax. lia. }
  destruct (shr_m mrs2) as [|p|p]; try discriminate.
  change (emax - prec) with 971.
  destruct (Z.leb_spec e2 971) as [_|Hgt]; [discriminate|lia].
Qed.

(** The quotient by ten of an integer below [2^1024] is a float. *)
Lemma int_truediv_10_ok (a : Z) :
  0 <= a < 2 ^ 1024 → int_truediv a 10 = Ok (PyFloat (SFdiv prec emax (exact_of_int a) (exact_of_int 10))).
Proof.
  intros Ha. unfold int_truediv. change (10 =? 0) with false. cbv iota.
  assert (H : ∀ s, SFdiv prec emax (exact_of_int a) (exact_of_int 10) ≠ S754_infinity s).
  { destruct a as [|p|p]; [discriminate| |lia].
    cbn [exact_of_int SFdiv xorb]. unfold SFdiv_core_binary.
    set (d1 := Zdigits2 (Z.pos p)).
    assert (Hd1 : 1 <= d1 <= 1024).
    { unfold d1. split; [simpl; lia|]. apply Zdigits2_le; lia. }
    change (Zdigits2 10) with 4.
    set (e' := Z.min (fexp prec emax (d1 + 0 - (4 + 0))) (0 - 0)).
    assert (He' : e' <= 0 ∧ 57 <= d1 - e' ∧ -1074 <= e').
    { unfold e', fexp, SpecFloat.emin, prec, emax. lia. }
    set (m' := match 0 - 0 - e' with
               | 0 => Z.pos p | Z.pos _ => Z.shiftl (Z.pos p) (0 - 0 - e') | Z.neg _ => 0 end).
    assert (Hm' : m' = Z.pos p * 2 ^ (- e')).
    { unfold m'. destruct (0 - 0 - e') as [|n|n] eqn:Hs; [| |lia].
      - replace (- e') with 0 by lia. lia.
      - rewrite Z.shiftl_mul_pow2 by lia. f_equal. f_equal. lia. }
    pose proof (Z_div_mod m' 10 ltac:(lia)) as Hdiv.
    destruct (Z.div_eucl m' 10) as [q r]. destruct Hdiv as [Hq Hr].
    pose proof (Zdigits2_gt (Z.pos p) ltac:(lia)) as Hp. fold d1 in Hp.
    assert (Hm'hi : m' < 2 ^ (d1 - e')).
    { rewrite Hm'. replace (d1 - e') with (d1 + - e') by lia.
      rewrite Z.pow_add_r by lia. apply Z.mul_lt_mono_pos_r; [|lia].
      apply Z.pow_pos_nonneg; lia. }
    assert (Hq8 : q < 2 ^ (d1 - e' - 3)).
    { assert (H8 : 2 ^ (d1 - e') = 8 * 2 ^ (d1 - e' - 3)).
      { replace (d1 - e') with (3 + (d1 - e' - 3)) at 1 by lia.
        rewrite Z.pow_add_r by lia. reflexivity. }
      assert (0 <= m') by (rewrite Hm'; apply Z.mul_nonneg_nonneg; [lia|apply Z.pow_nonneg; lia]).
      lia. }
    assert (Hq0 : 0 <= q).
    { assert (0 <= m') by (rewrite Hm'; apply Z.mul_nonneg_nonneg; [lia|apply Z.pow_nonneg; lia]).
      lia. }
    apply binary_round_aux_no_overflow with (K := d1 - e' - 3); lia. }
  destruct (SFdiv prec emax (exact_of_int a) (exact_of_int 10)) as [s|s| |s m e];
    try reflexivity.
  exfalso. exact (H s eq_refl).
Qed.

(** *** True division of small ints is float division *)

Lemma Zdigits2_unique (m k : Z) : 2 ^ (k - 1) <= m < 2 ^ k → 0 < k → Zdigits2 m = k.
Proof.
  intros Hm Hk.
  assert (H0 : 0 < m).
  { assert (0 < 2 ^ (k - 1)) by (apply Z.pow_pos_nonneg; lia). lia. }
  pose proof (Zdigits2_le m k ltac:(lia) ltac:(lia) ltac:(lia)) as Hle.
  pose proof (Zdigits2_gt m ltac:(lia)) as Hgt.
  pose proof (Zdigits2_nonneg m) as Hn.
  assert (H : 2 ^ (k - 1) < 2 ^ Zdigits2 m) by lia.
  apply Z.pow_lt_mono_r_iff in H; lia.
Qed.

Lemma Pos_iter_xO (p n : positive) : Z.pos (Pos.iter xO p n) = Z.pos p * 2 ^ Z.pos n.
Proof.
  induction n as [|n IH] using Pos.peano_ind.
  - cbn [Pos.iter]. lia.
  - rewrite Pos.iter_succ. rewrite Pos2Z.inj_xO, IH, Pos2Z.inj_succ, Z.pow_succ_r by lia. lia.
Qed.

Lemma shl_align_spec (p : positive) (ex ex' : Z) :
  ex' <= ex →
  snd (shl_align p ex ex') = ex' ∧
  Z.pos (fst (shl_align p ex ex')) = Z.pos p * 2 ^ (ex - ex').
Proof.
  intros Hle. unfold shl_align.
  destruct (ex' - ex) as [|n|n] eqn:Hd; cbn [fst snd]; [|lia|].
  - replace (ex - ex') with 0 by lia. lia.
  - rewrite Pos_iter_xO. replace (ex - ex') with (Z.pos n) by lia. lia.
Qed.

(** A 53-bit mantissa at an exponent of the format is already rounded. *)
Lemma binary_round_aux_canonical (m : positive) (e : Z) :
  Zdigits2 (Z.pos m) = 53 → -1074 <= e <= 971 →
  binary_round_aux prec emax false (Z.pos m) e loc_Exact = S754_finite false m e.
Proof.
  intros Hd He. unfold binary_round_aux, shr_fexp. rewrite Hd.
  assert (Hf : fexp prec emax (53 + e) - e = 0).
  { unfold fexp, SpecFloat.emin, prec, emax. lia. }
  rewrite Hf. cbn [shr shr_record_of_loc shr_m loc_of_shr_record round_nearest_even].
  rewrite Hd, Hf. cbn [shr shr_record_of_loc shr_m].
  change (emax - prec) with 971.
  destruct (Z.leb_spec e 971); [reflexivity|lia].
Qed.

(** [float(v)] of a positive int of at most 53 bits is exact: the int,
    shifted to 53 bits. *)
Lemma float_of_int_exact (p : positive) :
  let d := Zdigits2 (Z.pos p) in
  d <= 53 →
  ∃ m, float_of_int (Z.pos p) = S754_finite false m (d - 53) ∧
       Z.pos m = Z.pos p * 2 ^ (53 - d) ∧ Zdigits2 (Z.pos m) = 53.
Proof.
  intros d Hd. unfold float_of_int, binary_normalize, binary_round.
  change (Z.pos (digits2_pos p)) with d.
  assert (Hd1 : 1 <= d) by (unfold d; simpl; lia).
  assert (Hf : fexp prec emax (d + 0) = d - 53).
  { unfold fexp, SpecFloat.emin, prec, emax. lia. }
  rewrite Hf.
  pose proof (shl_align_spec p 0 (d - 53) ltac:(lia)) as [He Hm].
  destruct (shl_align p 0 (d - 53)) as [mz ez]. cbn [fst snd] in He, Hm. subst ez.
  replace (0 - (d - 53)) with (53 - d) in Hm by lia.
  assert (Hmz : Zdigits2 (Z.pos mz) = 53);
    [|exists mz; split; [apply binary_round_aux_canonical; [exact Hmz|lia]|tauto]].
  pose proof (Zdigits2_gt (Z.pos p) ltac:(lia)) as Hhi.
  pose proof (Zdigits2_le_pow (Z.pos p) ltac:(lia)) as Hlo. fold d in Hhi, Hlo.
  apply Zdigits2_unique; [|lia]. rewrite Hm. split.
  - replace (53 - 1) with ((d - 1) + (53 - d)) by lia. rewrite Z.pow_add_r by lia.
    apply Z.mul_le_mono_nonneg_r; [apply Z.pow_nonneg|]; lia.
  - replace 53 with (d + (53 - d)) at 2 by lia. rewrite Z.pow_add_r by lia.
    apply Z.mul_lt_mono_pos_r; [apply Z.pow_pos_nonneg|]; lia.
Qed.

Lemma div_eucl_scale (a b q r k : Z) :
  0 < b → 0 < k → Z.div_eucl a b = (q, r) → Z.div_eucl (a * k) (b * k) = (q, r * k).
Proof.
  intros Hb Hk H.
  pose proof (Z_div_mod a b ltac:(lia)) as Hab. rewrite H in Hab. destruct Hab as [Ha Hr].
  pose proof (Z_div_mod (a * k) (b * k) ltac:(lia)) as Hs.
  destruct (Z.div_eucl (a * k) (b * k)) as [q' r']. destruct Hs as [Hs Hr'].
  assert (Hq : q' = q ∧ r' = r * k); [|destruct Hq; congruence].
  apply (Z.div_mod_unique (b * k)); [lia|nia|nia].
Qed.

Lemma new_location_scale (r k : Z) :
  0 <= r → 0 < k → Z.even k = true →
  new_location (10 * k) (r * k) = new_location 10 r.
Proof.
  intros Hr Hk Hev. unfold new_location.
  rewrite Z.even_mul, Hev, orb_true_r. change (Z.even 10) with true. cbv iota.
  unfold new_location_even.
  destruct (Z.eqb_spec r 0) as [->|Hne].
  - reflexivity.
  - destruct (Z.eqb_spec (r * k) 0) as [H0|_]; [nia|].
    f_equal.
    destruct (Z.compare_spec (2 * (r * k)) (10 * k)), (Z.compare_spec (2 * r) 10);
      try reflexivity; nia.
Qed.

(** For an int of at most 53 bits, the correctly rounded quotient [v / 10] of
    ints is the float division [float(v) / 10.0]. *)
Lemma truediv_is_float_div (v : Z) :
  0 <= v < 2 ^ 53 →
  SFdiv prec emax (exact_of_int v) (exact_of_int 10)
  = float_div (float_of_int v) (float_of_int 10).
Proof.
  intros Hv. destruct v as [|p|p]; [reflexivity| |lia].
  assert (Hd : Zdigits2 (Z.pos p) <= 53) by (apply Zdigits2_le; lia).
  destruct (float_of_int_exact p Hd) as (m & Hf & Hm & Hdm).
  set (d := Zdigits2 (Z.pos p)) in *.
  assert (Hd1 : 1 <= d) by (unfold d; simpl; lia).
  unfold float_div. rewrite Hf.
  change (float_of_int 10) with (S754_finite false 5629499534213120 (-49)).
  cbn [exact_of_int SFdiv xorb].
  assert (Hcore : SFdiv_core_binary prec emax (Z.pos p) 0 10 0
                  = SFdiv_core_binary prec emax (Z.pos m) (d - 53) 5629499534213120 (-49));
    [|rewrite Hcore; reflexivity].
  unfold SFdiv_core_binary. fold d. rewrite Hdm.
  change (Zdigits2 10) with 4. change (Zdigits2 5629499534213120) with 53.
  assert (HeL : Z.min (fexp prec emax (d + 0 - (4 + 0))) (0 - 0) = d - 57).
  { unfold fexp, SpecFloat.emin, prec, emax. lia. }
  assert (HeR : Z.min (fexp prec emax (53 + (d - 53) - (53 + -49))) (d - 53 - -49) = d - 57).
  { unfold fexp, SpecFloat.emin, prec, emax. lia. }
  rewrite HeL, HeR.
  replace (d - 53 - -49 - (d - 57)) with 53 by lia.
  set (a := Z.pos p * 2 ^ (57 - d)).
  assert (HL : match 0 - 0 - (d - 57) with
               | 0 => Z.pos p
               | Z.pos _ => Z.shiftl (Z.pos p) (0 - 0 - (d - 57))
               | Z.neg _ => 0
               end = a).
  { destruct (0 - 0 - (d - 57)) as [|n|n] eqn:Hs; [lia| |lia].
    rewrite Z.shiftl_mul_pow2 by lia. unfold a. f_equal. f_equal. lia. }
  rewrite HL.
  assert (HR : Z.shiftl (Z.pos m) 53 = a * 2 ^ 49).
  { rewrite Z.shiftl_mul_pow2 by lia. rewrite Hm. unfold a.
    rewrite <- !Z.mul_assoc, <- !Z.pow_add_r by lia. f_equal. f_equal. lia. }
  rewrite HR. change 5629499534213120 with (10 * 2 ^ 49).
  assert (Ha : 0 <= a) by (unfold a; apply Z.mul_nonneg_nonneg; [lia|apply Z.pow_nonneg; lia]).
  pose proof (Z_div_mod a 10 ltac:(lia)) as Hqr.
  destruct (Z.div_eucl a 10) as [q r] eqn:Hdiv. destruct Hqr as [_ Hr].
  rewrite (div_eucl_scale a 10 q r (2 ^ 49)) by (try exact Hdiv; lia).
  rewrite new_location_scale by (try reflexivity; lia).
  reflexivity.
Qed.

(** ** The temperature decoder *)

Ltac unfold_monad :=
  unfold mbind, M_bind, mret, M_ret, bind, ret, raise, lift, modify, timeout, try_except.

(** Running the decoder: the state is returned as it was, with the outcome of
    the arithmetic. *)
Lemma bytes_to_temperature_run {W} (data : bytes) (s : state W) :
  bytes_to_temperature data s
  = (s, if int_from_bytes_little data =? 0xffff then Ok (PyInt 0)
        else int_truediv (int_from_bytes_little data) 10).
Proof.
  unfold bytes_to_temperature. destruct (int_from_bytes_little data =? 0xffff); reflexivity.
Qed.

Lemma bytes_to_temperature_short {W} (data : bytes) (s : state W) :
  (length data <= 128)%nat →
  ∃ v f, bytes_to_temperature data s = (s, Ok v) ∧ float_of_pyval v = Ok f.
Proof.
  intros Hlen. rewrite bytes_to_temperature_run.
  destruct (int_from_bytes_little data =? 0xffff).
  - exists (PyInt 0), (S754_zero false). split; reflexivity.
  - pose proof (int_from_bytes_little_range data) as Hr.
    assert (Hpow : 256 ^ Z.of_nat (length data) <= 2 ^ 1024).
    { change 256 with (2 ^ 8). rewrite <- Z.pow_mul_r by lia.
      apply Z.pow_le_mono_r; lia. }
    rewrite int_truediv_10_ok by lia. eexists _, _. split; reflexivity.
Qed.

Lemma slice_length {A} (data : list A) (i j : nat) : (length (slice data i j) <= j - i)%nat.
Proof. unfold slice. rewrite length_firstn. lia. Qed.

(** C2. For every 2-byte input, read as the unsigned little-endian integer
    [v], the decoder returns [0] when [v] is the sentinel [0xFFFF] and
    otherwise the float [v / 10.0]. *)
Theorem bytes_to_temperature_two_bytes {W} (b0 b1 : Byte.byte) (s : state W) :
  let v := byte_val b0 + 256 * byte_val b1 in
  bytes_to_temperature [b0; b1] s
  = (s, Ok (if v =? 0xffff then PyInt 0
            else PyFloat (float_div (float_of_int v) (float_of_int 10)))).
Proof.
  intros v. rewrite bytes_to_temperature_run.
  assert (Hraw : int_from_bytes_little [b0; b1] = v).
  { cbn [int_from_bytes_little]. unfold v. lia. }
  rewrite Hraw.
  pose proof (byte_val_range b0). pose proof (byte_val_range b1).
  destruct (v =? 0xffff); [reflexivity|].
  rewrite int_truediv_10_ok by lia.
  rewrite truediv_is_float_div by lia. reflexivity.
Qed.

(** C9. The decoder is pure and deterministic: an invocation leaves the
    program state as it found it, and its result depends on the bytes only,
    whatever the state it runs in. *)
Theorem bytes_to_temperature_pure {W1 W2} (data : bytes) (s1 : state W1) (s2 : state W2) :
  fst (bytes_to_temperature data s1) = s1 ∧
  snd (bytes_to_temperature data s1) = snd (bytes_to_temperature data s2).
Proof.
  rewrite !bytes_to_temperature_run. split; reflexivity.
Qed.

(** C10, as the code has it: the decoder returns a value, and does not raise,
    on every input of at most 128 bytes; the empty sequence decodes to [0.0],
    which equals [0]; and the two windows the handler cuts from a payload of
    any length are within that bound. *)
Theorem bytes_to_temperature_total_upto_128 {W} (data : bytes) (s : state W) :
  (length data <= 128)%nat →
  (∃ v, bytes_to_temperature data s = (s, Ok v)) ∧
  bytes_to_temperature [] s = (s, Ok (PyFloat (S754_zero false))) ∧
  py_eq (PyFloat (S754_zero false)) (PyInt 0) = true ∧
  (length (slice data 0 2) <= 128)%nat ∧ (length (slice data 2 4) <= 128)%nat.
Proof.
  intros Hlen. split; [|split; [|split; [|split]]].
  - destruct (bytes_to_temperature_short data s Hlen) as (v & _ & Hv & _). eauto.
  - reflexivity.
  - reflexivity.
  - pose proof (slice_length data 0 2). lia.
  - pose proof (slice_length data 2 4). lia.
Qed.

Lemma bytes_to_temperature_total_upto_128_witness :
  (length [Byte.x01; Byte.x00] <= 128)%nat ∧
  ((∃ v, bytes_to_temperature [Byte.x01; Byte.x00] (initial_state tt) = (initial_state tt, Ok v)) ∧
   bytes_to_temperature [] (initial_state tt) = (initial_state tt, Ok (PyFloat (S754_zero false))) ∧
   py_eq (PyFloat (S754_zero false)) (PyInt 0) = true ∧
   (length (slice [Byte.x01; Byte.x00] 0 2) <= 128)%nat ∧
   (length (slice [Byte.x01; Byte.x00] 2 4) <= 128)%nat).
Proof.
  split; [simpl; lia|].
  apply (bytes_to_temperature_total_upto_128 [Byte.x01; Byte.x00] (initial_state tt)).
  simpl; lia.
Defined.

(** C10, as stated, fails: on 129 bytes [0xFF] the quotient is beyond the
    largest float and the division raises [OverflowError]. *)
Lemma bytes_to_temperature_overflow :
  snd (bytes_to_temperature (repeat Byte.xff 129) (initial_state tt))
  = Raise (OverflowError "integer division result too large for a float").
Proof. vm_compute. reflexivity. Qed.

(** C5. The sentinel [0xFFFF] and the genuine reading [0x0000] decode to
    values that are equal ([0 == 0.0]), that [Gauge.set] stores as the same
    float, and that leave the handler in the same state: an absent probe
    cannot be told from a reading of 0.0 degrees. *)
Theorem sentinel_same_as_zero_reading {W} (args : Namespace) (s : state W) :
  ∃ absent zero,
    bytes_to_temperature [Byte.xff; Byte.xff] s = (s, Ok absent) ∧
    bytes_to_temperature [Byte.x00; Byte.x00] s = (s, Ok zero) ∧
    py_eq absent zero = true ∧
    float_of_pyval absent = float_of_pyval zero ∧
    (∀ label, gauge_set label absent s = gauge_set label zero s) ∧
    (∀ c rest, data_notify_handler args c (Byte.xff :: Byte.xff :: rest) s
               = data_notify_handler args c (Byte.x00 :: Byte.x00 :: rest) s).
Proof.
  exists (PyInt 0), (PyFloat (S754_zero false)).
  split; [reflexivity|]. split; [reflexivity|]. split; [reflexivity|].
  split; [reflexivity|]. split; [reflexivity|].
  intros c rest. unfold data_notify_handler. unfold_monad.
  destruct (log "%s: %r" s) as [s1 [[]| |]]; reflexivity.
Qed.

(** ** The notification handler *)

(** Selecting a child and setting it: the child holds the value, whether it
    was there before or not. *)
Lemma gauge_labels_set_run {W A} (label : string) (v : pyval) (f : float)
      (k : unit → M W A) (s : state W) :
  float_of_pyval v = Ok f →
  (gauge_labels label ≫= λ _, gauge_set label v ≫= k) s = k tt (set_temperature label f s).
Proof.
  intros Hf. unfold gauge_labels, gauge_set. unfold_monad. rewrite Hf.
  unfold set_temperature.
  destruct (temperature (registry s) !! label) eqn:E; cbn.
  - reflexivity.
  - rewrite insert_insert_eq. reflexivity.
Qed.

Lemma data_notify_handler_run {W} (args : Namespace) (c : string) (data : bytes) (s : state W) :
  ∃ t1 t2 f1 f2,
    bytes_to_temperature (slice data 0 2) s = (s, Ok t1) ∧
    bytes_to_temperature (slice data 2 4) s = (s, Ok t2) ∧
    float_of_pyval t1 = Ok f1 ∧ float_of_pyval t2 = Ok f2 ∧
    data_notify_handler args c data s = (handled args f1 f2 s, Ok tt).
Proof.
  assert (H1 : (length (slice data 0 2) <= 128)%nat) by (pose proof (slice_length data 0 2); lia).
  assert (H2 : (length (slice data 2 4) <= 128)%nat) by (pose proof (slice_length data 2 4); lia).
  destruct (bytes_to_temperature_short (slice data 0 2) s H1) as (t1 & f1 & Ht1 & Hf1).
  destruct (bytes_to_temperature_short (slice data 2 4) s H2) as (t2 & f2 & Ht2 & Hf2).
  exists t1, t2, f1, f2. repeat (split; [assumption|]).
  rewrite bytes_to_temperature_run in Ht1, Ht2.
  injection Ht1 as Ht1. injection Ht2 as Ht2.
  unfold data_notify_handler.
  unfold mbind at 1, M_bind at 1, bind at 1. unfold log at 1, modify at 1.
  unfold mbind at 1, M_bind at 1, bind at 1. rewrite bytes_to_temperature_run, Ht1.
  unfold mbind at 1, M_bind at 1, bind at 1. rewrite bytes_to_temperature_run, Ht2.
  rewrite (gauge_labels_set_run _ _ _ _ _ Hf1).
  rewrite (gauge_labels_set_run _ _ _ _ _ Hf2).
  unfold set_to_current_time, log. unfold_monad.
  unfold handled, set_temperature, set_registry, add_event. cbn.
  rewrite <- app_assoc. reflexivity.
Qed.

(** The readings [01 00 02 00] are recorded as 0.1 and 0.2 degrees, and
    [FF FF FF FF], two absent probes, as 0.0 and 0.0. *)
Example handler_reading_0_1_and_0_2 :
  let s' := fst (data_notify_handler two_names "data"
                   [Byte.x01; Byte.x00; Byte.x02; Byte.x00] (initial_state tt)) in
  temperature (registry s') !! "meat" = Some f0_1 ∧
  temperature (registry s') !! "grill" = Some f0_2.
Proof. split; vm_compute; reflexivity. Qed.

Example handler_absent_probes :
  let s' := fst (data_notify_handler two_names "data"
                   [Byte.xff; Byte.xff; Byte.xff; Byte.xff] (initial_state tt)) in
  temperature (registry s') !! "meat" = Some (S754_zero false) ∧
  temperature (registry s') !! "grill" = Some (S754_zero false).
Proof. split; vm_compute; reflexivity. Qed.

(** C1, as the code has it: a payload whose length is not 4 is not discarded.
    The handler does not raise; it writes the decoding of [data[0:2]] to the
    first gauge and that of [data[2:4]] to the second (a window that is
    missing decodes to [0.0]), and sets the timestamp. *)
Theorem handler_accepts_any_length {W} (args : Namespace) (c : string) (data : bytes)
        (s : state W) :
  length data ≠ 4%nat →
  ∃ t1 t2 f1 f2,
    bytes_to_temperature (slice data 0 2) s = (s, Ok t1) ∧
    bytes_to_temperature (slice data 2 4) s = (s, Ok t2) ∧
    float_of_pyval t1 = Ok f1 ∧ float_of_pyval t2 = Ok f2 ∧
    data_notify_handler args c data s = (handled args f1 f2 s, Ok tt) ∧
    ((length data <= 2)%nat → f2 = S754_zero false).
Proof.
  intros _.
  destruct (data_notify_handler_run args c data s) as (t1 & t2 & f1 & f2 & H1 & H2 & Hf1 & Hf2 & Hrun).
  exists t1, t2, f1, f2. repeat (split; [assumption|]).
  intros Hlen.
  assert (Hs : slice data 2 4 = []).
  { unfold slice. rewrite skipn_all2 by lia. reflexivity. }
  rewrite Hs in H2. cbv in H2. injection H2 as <-. cbv in Hf2. congruence.
Qed.

Lemma handler_accepts_any_length_witness :
  length [Byte.x05] ≠ 4%nat ∧
  ∃ t1 t2 f1 f2,
    bytes_to_temperature (slice [Byte.x05] 0 2) (initial_state tt) = (initial_state tt, Ok t1) ∧
    bytes_to_temperature (slice [Byte.x05] 2 4) (initial_state tt) = (initial_state tt, Ok t2) ∧
    float_of_pyval t1 = Ok f1 ∧ float_of_pyval t2 = Ok f2 ∧
    data_notify_handler two_names "data" [Byte.x05] (initial_state tt)
    = (handled two_names f1 f2 (initial_state tt), Ok tt) ∧
    ((length [Byte.x05] <= 2)%nat → f2 = S754_zero false).
Proof.
  split; [simpl; lia|].
  apply (handler_accepts_any_length two_names "data" [Byte.x05] (initial_state tt)).
  simpl; lia.
Defined.

(** C1, as stated, fails: after the reading [01 00 02 00] (0.1 and 0.2
    degrees), the one-byte payload [05] moves the second gauge from 0.2 to
    0.0 and the first from 0.1 to 0.5. *)
Lemma handler_short_payload_overwrites :
  let s1 := fst (data_notify_handler two_names "data"
                   [Byte.x01; Byte.x00; Byte.x02; Byte.x00] (initial_state tt)) in
  let s2 := fst (data_notify_handler two_names "data" [Byte.x05] s1) in
  length [Byte.x05] ≠ 4%nat ∧
  temperature (registry s1) !! "meat" = Some f0_1 ∧
  temperature (registry s1) !! "grill" = Some f0_2 ∧
  temperature (registry s2) !! "meat" = Some f0_5 ∧
  temperature (registry s2) !! "grill" = Some (S754_zero false) ∧
  registry s2 ≠ registry s1.
Proof.
  cbv zeta. split; [simpl; lia|].
  split; [vm_compute; reflexivity|]. split; [vm_compute; reflexivity|].
  split; [vm_compute; reflexivity|]. split; [vm_compute; reflexivity|].
  intros H. apply (f_equal (fun r => temperature r !! "grill")) in H.
  vm_compute in H. discriminate H.
Qed.

(** C3, as the code has it: after a 4-byte payload the second gauge holds the
    decoding of [b[2:4]]; the first gauge holds the decoding of [b[0:2]] when
    the two labels differ (with one label for both probes, the second reading
    is written over the first); the timestamp is the time of the call, so a
    later call moves it forward. *)
Theorem handler_records_reading {W} (args : Namespace) (c : string)
        (b0 b1 b2 b3 : Byte.byte) (s : state W) :
  ∃ t1 t2 f1 f2 s',
    bytes_to_temperature [b0; b1] s = (s, Ok t1) ∧
    bytes_to_temperature [b2; b3] s = (s, Ok t2) ∧
    float_of_pyval t1 = Ok f1 ∧ float_of_pyval t2 = Ok f2 ∧
    data_notify_handler args c [b0; b1; b2; b3] s = (s', Ok tt) ∧
    temperature (registry s') !! str (probe2_name args) = Some f2 ∧
    (str (probe1_name args) ≠ str (probe2_name args) →
     temperature (registry s') !! str (probe1_name args) = Some f1) ∧
    last_received (registry s') = clock s ∧
    (∀ later c' data',
       SFltb (clock s) later = true →
       let s'' := fst (data_notify_handler args c' data' (set_clock later s')) in
       SFltb (last_received (registry s')) (last_received (registry s'')) = true).
Proof.
  destruct (data_notify_handler_run args c [b0; b1; b2; b3] s)
    as (t1 & t2 & f1 & f2 & H1 & H2 & Hf1 & Hf2 & Hrun).
  exists t1, t2, f1, f2, (handled args f1 f2 s).
  repeat (split; [assumption|]).
  split; [|split; [|split]].
  - cbn. apply lookup_insert_eq.
  - intros Hne. cbn. rewrite lookup_insert_ne by congruence. apply lookup_insert_eq.
  - reflexivity.
  - intros later c' data' Hlt.
    destruct (data_notify_handler_run args c' data' (set_clock later (handled args f1 f2 s)))
      as (? & ? & g1 & g2 & _ & _ & _ & _ & Hrun').
    cbv zeta. rewrite Hrun'. cbn. exact Hlt.
Qed.

Lemma handler_records_reading_witness :
  str (probe1_name two_names) ≠ str (probe2_name two_names) ∧
  SFltb (clock (initial_state tt)) f0_5 = true ∧
  let s' := fst (data_notify_handler two_names "data"
                   [Byte.x01; Byte.x00; Byte.x02; Byte.x00] (initial_state tt)) in
  let s'' := fst (data_notify_handler two_names "data"
                    [Byte.x02; Byte.x00; Byte.x01; Byte.x00] (set_clock f0_5 s')) in
  temperature (registry s') !! "meat" = Some f0_1 ∧
  temperature (registry s') !! "grill" = Some f0_2 ∧
  SFltb (last_received (registry s')) (last_received (registry s'')) = true.
Proof.
  split; [discriminate|]. split; [reflexivity|]. cbv zeta.
  destruct (handler_records_reading two_names "data" Byte.x01 Byte.x00 Byte.x02 Byte.x00
              (initial_state tt))
    as (t1 & t2 & f1 & f2 & s' & H1 & H2 & Hf1 & Hf2 & Hrun & Hl2 & Hl1 & Hts & Hmono).
  rewrite Hrun. cbn [fst].
  injection H1 as <-. injection H2 as <-. injection Hf1 as <-. injection Hf2 as <-.
  split; [apply Hl1; discriminate|]. split; [exact Hl2|].
  apply (Hmono f0_5 "data" [Byte.x02; Byte.x00; Byte.x01; Byte.x00]). reflexivity.
Defined.

(** C3, as stated, fails when both probes have the same label, as they do
    when neither name is given on the command line: the first reading of
    [01 00 02 00] is 0.1, and the gauge of the first label holds 0.2. *)
Lemma handler_same_label_overwrites :
  let s' := fst (data_notify_handler no_names "data"
                   [Byte.x01; Byte.x00; Byte.x02; Byte.x00] (initial_state tt)) in
  snd (bytes_to_temperature [Byte.x01; Byte.x00] (initial_state tt)) = Ok (PyFloat f0_1) ∧
  temperature (registry s') !! str (probe1_name no_names) = Some f0_2 ∧
  temperature (registry s') !! str (probe1_name no_names) ≠ Some f0_1.
Proof.
  cbv zeta. split; [vm_compute; reflexivity|]. split; [vm_compute; reflexivity|].
  intros H. vm_compute in H. discriminate H.
Qed.

(** ** The connection supervisor *)

Lemma calls_app (evs1 evs2 : list event) : calls (evs1 ++ evs2) = calls evs1 ++ calls evs2.
Proof.
  induction evs1 as [|[msg|a o|now data] evs1 IH]; cbn [calls app]; congruence.
Qed.

Lemma sup_run_app (q : phase) (h1 h2 : list (action * outcome)) :
  sup_run q (h1 ++ h2)
  = match sup_run q h1 with Some q' => sup_run q' h2 | None => None end.
Proof.
  revert q. induction h1 as [|c h1 IH]; intros q; cbn [sup_run app]; [reflexivity|].
  destruct (sup_step q c); [apply IH|reflexivity].
Qed.

Lemma replay_app (args : Namespace) (evs1 evs2 : list event) (r : Registry) :
  replay args (evs1 ++ evs2) r = replay args evs2 (replay args evs1 r).
Proof.
  revert r. induction evs1 as [|[msg|a o|now data] evs1 IH]; intros r; cbn [replay app];
    [reflexivity|apply IH..].
Qed.

Lemma quiet_app (evs1 evs2 : list event) : quiet (evs1 ++ evs2) = quiet evs1 && quiet evs2.
Proof.
  induction evs1 as [|[msg|a o|now data] evs1 IH]; cbn [quiet app]; auto.
Qed.

Lemma replay_quiet (args : Namespace) (evs : list event) (r : Registry) :
  quiet evs = true → replay args evs r = r.
Proof.
  induction evs as [|[msg|a o|now data] evs IH]; cbn [quiet replay]; auto. discriminate.
Qed.

Lemma new_events_app {W} (s s' : state W) (evs : list event) :
  trace s' = trace s ++ evs → new_events s s' = evs.
Proof.
  intros H. unfold new_events. rewrite H. rewrite skipn_app, skipn_all, Nat.sub_diag.
  reflexivity.
Qed.

Section Supervisor.
Context {W : Type}.
Variable args : Namespace.
Variable env : Env W.

Lemma follows_ret {A} (a : A) (q : phase) (Q : phase → res A → Prop) :
  Q q (Ok a) → follows args (mret a : M W A) q Q.
Proof.
  intros HQ s. exists [], q. cbn. rewrite app_nil_r. auto.
Qed.

Lemma follows_raise {A} (e : exn) (q : phase) (Q : phase → res A → Prop) :
  Q q (Raise e) → follows args (raise e : M W A) q Q.
Proof.
  intros HQ s. exists [], q. cbn. rewrite app_nil_r. auto.
Qed.

Lemma follows_timeout {A} (q : phase) (Q : phase → res A → Prop) :
  Q q Timeout → follows args (timeout : M W A) q Q.
Proof.
  intros HQ s. exists [], q. cbn. rewrite app_nil_r. auto.
Qed.

Lemma follows_weaken {A} (m : M W A) (q : phase) (Q1 Q : phase → res A → Prop) :
  follows args m q Q1 → (∀ q' r, Q1 q' r → Q q' r) → follows args m q Q.
Proof.
  intros Hm HQ s. destruct (Hm s) as (evs & q' & Ht & Hr & Hq & H1).
  exists evs, q'. auto.
Qed.

Lemma follows_bind {A B} (m : M W A) (k : A → M W B) (q : phase)
      (Q1 : phase → res A → Prop) (Q : phase → res B → Prop) :
  follows args m q Q1 →
  (∀ q1 a, Q1 q1 (Ok a) → follows args (k a) q1 Q) →
  (∀ q1 e, Q1 q1 (Raise e) → Q q1 (Raise e)) →
  (∀ q1, Q1 q1 Timeout → Q q1 Timeout) →
  follows args (m ≫= k) q Q.
Proof.
  intros Hm Hk He Ht s. unfold mbind, M_bind, bind.
  destruct (Hm s) as (evs1 & q1 & Htr1 & Hreg1 & Hrun1 & H1).
  destruct (m s) as [s1 [a|e|]]; cbn [fst snd] in *.
  - destruct (Hk q1 a H1 s1) as (evs2 & q2 & Htr2 & Hreg2 & Hrun2 & H2).
    exists (evs1 ++ evs2), q2. split; [|split; [|split]].
    + rewrite Htr2, Htr1, app_assoc. reflexivity.
    + rewrite Hreg2, Hreg1, replay_app. reflexivity.
    + rewrite calls_app, sup_run_app, Hrun1. exact Hrun2.
    + exact H2.
  - exists evs1, q1. auto.
  - exists evs1, q1. auto.
Qed.

Lemma follows_try_except {A} (m : M W A) (catches : exn → bool) (h : exn → M W A)
      (q : phase) (Q1 Q : phase → res A → Prop) :
  follows args m q Q1 →
  (∀ q1 e, Q1 q1 (Raise e) → catches e = true → follows args (h e) q1 Q) →
  (∀ q1 e, Q1 q1 (Raise e) → catches e = false → Q q1 (Raise e)) →
  (∀ q1 a, Q1 q1 (Ok a) → Q q1 (Ok a)) →
  (∀ q1, Q1 q1 Timeout → Q q1 Timeout) →
  follows args (try_except m catches h) q Q.
Proof.
  intros Hm Hh He Ho Ht s. unfold try_except.
  destruct (Hm s) as (evs1 & q1 & Htr1 & Hreg1 & Hrun1 & H1).
  destruct (m s) as [s1 [a|e|]]; cbn [fst snd] in *.
  - exists evs1, q1. auto.
  - destruct (catches e) eqn:Hc.
    + destruct (Hh q1 e H1 Hc s1) as (evs2 & q2 & Htr2 & Hreg2 & Hrun2 & H2).
      exists (evs1 ++ evs2), q2. split; [|split; [|split]].
      * rewrite Htr2, Htr1, app_assoc. reflexivity.
      * rewrite Hreg2, Hreg1, replay_app. reflexivity.
      * rewrite calls_app, sup_run_app, Hrun1. exact Hrun2.
      * exact H2.
    + exists evs1, q1. cbn [fst snd]. auto.
  - exists evs1, q1. auto.
Qed.

Lemma follows_leaving {A} (body : M W A) (exit : M W unit) (q : phase)
      (Q1 Q : phase → res A → Prop) :
  follows args body q Q1 →
  (∀ q1 a, Q1 q1 (Ok a) → follows args (bind exit (fun _ => ret a)) q1 Q) →
  (∀ q1 e, Q1 q1 (Raise e) → follows args (bind exit (fun _ => raise e)) q1 Q) →
  (∀ q1, Q1 q1 Timeout → Q q1 Timeout) →
  follows args (leaving body exit) q Q.
Proof.
  intros Hm Ho He Ht s. unfold leaving.
  destruct (Hm s) as (evs1 & q1 & Htr1 & Hreg1 & Hrun1 & H1).
  destruct (body s) as [s1 [a|e|]]; cbn [fst snd] in *.
  - destruct (Ho q1 a H1 s1) as (evs2 & q2 & Htr2 & Hreg2 & Hrun2 & H2).
    exists (evs1 ++ evs2), q2. split; [|split; [|split]].
    + rewrite Htr2, Htr1, app_assoc. reflexivity.
    + rewrite Hreg2, Hreg1, replay_app. reflexivity.
    + rewrite calls_app, sup_run_app, Hrun1. exact Hrun2.
    + exact H2.
  - destruct (He q1 e H1 s1) as (evs2 & q2 & Htr2 & Hreg2 & Hrun2 & H2).
    exists (evs1 ++ evs2), q2. split; [|split; [|split]].
    + rewrite Htr2, Htr1, app_assoc. reflexivity.
    + rewrite Hreg2, Hreg1, replay_app. reflexivity.
    + rewrite calls_app, sup_run_app, Hrun1. exact Hrun2.
    + exact H2.
  - exists evs1, q1. auto.
Qed.

Lemma follows_log {A} (msg : string) (k : unit → M W A) (q : phase)
      (Q : phase → res A → Prop) :
  follows args (k tt) q Q → follows args (log msg ≫= k) q Q.
Proof.
  intros Hk. apply follows_bind with (Q1 := fun q1 r => q1 = q ∧ r = Ok tt).
  - intros s. exists [EvLog msg], q. cbn. auto.
  - intros q1 [] [-> _]. exact Hk.
  - intros q1 e [_ H]. discriminate H.
  - intros q1 [_ H]. discriminate H.
Qed.

Lemma follows_modify_subscribed {A} (b : bool) (k : unit → M W A) (q : phase)
      (Q : phase → res A → Prop) :
  follows args (k tt) q Q → follows args (modify (set_subscribed b) ≫= k) q Q.
Proof.
  intros Hk. apply follows_bind with (Q1 := fun q1 r => q1 = q ∧ r = Ok tt).
  - intros s. exists [], q. cbn. rewrite app_nil_r. auto.
  - intros q1 [] [-> _]. exact Hk.
  - intros q1 e [_ H]. discriminate H.
  - intros q1 [_ H]. discriminate H.
Qed.

(** A notification that reaches the handler adds its event and two log
    lines, and changes the registry as [replay] says. *)
Lemma notify_spec (n : float * bytes) (s : state W) :
  ∃ evs, trace (notify args n s) = trace s ++ evs ∧ calls evs = [] ∧
         registry (notify args n s) = replay args evs (registry s).
Proof.
  unfold notify. destruct (subscribed s).
  - set (s0 := add_event (EvNotification (fst n) (snd n)) (set_clock (fst n) s)).
    destruct (data_notify_handler_run args data_characteristic (snd n) s0)
      as (t1 & t2 & f1 & f2 & H1 & H2 & Hf1 & Hf2 & Hrun).
    rewrite Hrun. cbn [fst].
    exists [EvNotification (fst n) (snd n); EvLog "%s: %r"; EvLog "t1: %f - t2: %f"].
    split; [|split].
    + cbn. rewrite <- app_assoc. reflexivity.
    + reflexivity.
    + cbn [replay]. unfold registry_after.
      set (d := {| world := tt; clock := fst n; registry := registry s;
                   subscribed := true; trace := [] |}).
      destruct (data_notify_handler_run args data_characteristic (snd n) d)
        as (t1' & t2' & f1' & f2' & H1' & H2' & Hf1' & Hf2' & Hrun').
      rewrite Hrun'. rewrite bytes_to_temperature_run in H1, H2.
      rewrite bytes_to_temperature_run in H1', H2'.
      assert (t1' = t1) by congruence. assert (t2' = t2) by congruence. subst t1' t2'.
      assert (f1' = f1) by congruence. assert (f2' = f2) by congruence. subst f1' f2'.
      reflexivity.
  - exists []. rewrite app_nil_r. auto.
Qed.

Lemma notify_all_spec (l : list (float * bytes)) (s : state W) :
  ∃ evs, trace (fold_left (fun s n => notify args n s) l s) = trace s ++ evs ∧
         calls evs = [] ∧
         registry (fold_left (fun s n => notify args n s) l s) = replay args evs (registry s).
Proof.
  revert s. induction l as [|n l IH]; intros s; cbn [fold_left].
  - exists []. rewrite app_nil_r. auto.
  - destruct (notify_spec n s) as (evs1 & Ht1 & Hc1 & Hr1).
    destruct (IH (notify args n s)) as (evs2 & Ht2 & Hc2 & Hr2).
    exists (evs1 ++ evs2). split; [|split].
    + rewrite Ht2, Ht1, app_assoc. reflexivity.
    + rewrite calls_app, Hc1, Hc2. reflexivity.
    + rewrite Hr2, Hr1, replay_app. reflexivity.
Qed.

(** An awaited call, then the rest: a step of the machine on each of its
    outcomes. *)
Lemma follows_await {A B} (a : action) (summary : A → outcome) (call : W → reply W A)
      (k : A → M W B) (q : phase) (Q : phase → res B → Prop) :
  (∀ e, ∃ q', sup_step q (a, Raised e) = Some q' ∧ Q q' (Raise e)) →
  (∀ v, ∃ q', sup_step q (a, summary v) = Some q' ∧ follows args (k v) q' Q) →
  follows args (await args a summary call ≫= k) q Q.
Proof.
  intros He Hv.
  apply follows_bind with
    (Q1 := fun q1 r => match r with
                       | Ok v => sup_step q (a, summary v) = Some q1
                       | Raise e => sup_step q (a, Raised e) = Some q1
                       | Timeout => False
                       end).
  - intros s. unfold await.
    destruct (notify_all_spec (delivered (call (world s))) (set_world (next (call (world s))) s))
      as (evs & Ht & Hc & Hr).
    destruct (result (call (world s))) as [e|v]; cbn [fst snd].
    + destruct (He e) as (q' & Hq' & _).
      exists (evs ++ [EvCall a (Raised e)]), q'. split; [|split; [|split]].
      * cbn. rewrite Ht. cbn. rewrite <- app_assoc. reflexivity.
      * cbn. rewrite Hr, replay_app. reflexivity.
      * rewrite calls_app, Hc. cbn. rewrite Hq'. reflexivity.
      * exact Hq'.
    + destruct (Hv v) as (q' & Hq' & _).
      exists (evs ++ [EvCall a (summary v)]), q'. split; [|split; [|split]].
      * cbn. rewrite Ht. cbn. rewrite <- app_assoc. reflexivity.
      * cbn. rewrite Hr, replay_app. reflexivity.
      * rewrite calls_app, Hc. cbn. rewrite Hq'. reflexivity.
      * exact Hq'.
  - intros q1 v H1. destruct (Hv v) as (q' & Hq' & Hk).
    assert (q1 = q') by congruence. subst q1. exact Hk.
  - intros q1 e H1. destruct (He e) as (q' & Hq' & HQ).
    assert (q1 = q') by congruence. subst q1. exact HQ.
  - intros q1 [].
Qed.

Lemma follows_invoke {A B} (a : action) (summary : A → outcome) (call : W → W * (exn + A))
      (k : A → M W B) (q : phase) (Q : phase → res B → Prop) :
  (∀ e, ∃ q', sup_step q (a, Raised e) = Some q' ∧ Q q' (Raise e)) →
  (∀ v, ∃ q', sup_step q (a, summary v) = Some q' ∧ follows args (k v) q' Q) →
  follows args (invoke a summary call ≫= k) q Q.
Proof.
  intros He Hv.
  apply follows_bind with
    (Q1 := fun q1 r => match r with
                       | Ok v => sup_step q (a, summary v) = Some q1
                       | Raise e => sup_step q (a, Raised e) = Some q1
                       | Timeout => False
                       end).
  - intros s. unfold invoke. destruct (call (world s)) as [w [e|v]]; cbn [fst snd].
    + destruct (He e) as (q' & Hq' & _).
      exists [EvCall a (Raised e)], q'. cbn. rewrite Hq'. auto.
    + destruct (Hv v) as (q' & Hq' & _).
      exists [EvCall a (summary v)], q'. cbn. rewrite Hq'. auto.
  - intros q1 v H1. destruct (Hv v) as (q' & Hq' & Hk).
    assert (q1 = q') by congruence. subst q1. exact Hk.
  - intros q1 e H1. destruct (He e) as (q' & Hq' & HQ).
    assert (q1 = q') by congruence. subst q1. exact HQ.
  - intros q1 [].
Qed.

Lemma silent_ret : silent (mret tt : M W unit).
Proof. intros s. exists []. cbn. rewrite app_nil_r. auto. Qed.

Lemma silent_log (msg : string) : silent (log msg : M W unit).
Proof. intros s. exists [EvLog msg]. cbn. auto. Qed.

Lemma silent_bind (m : M W unit) (k : M W unit) :
  silent m → silent k → silent (m ≫= fun _ => k).
Proof.
  intros Hm Hk s. unfold mbind, M_bind, bind.
  destruct (Hm s) as (evs1 & Hr1 & Ht1 & Hg1 & Hc1 & Hq1).
  destruct (m s) as [s1 r1]. cbn [fst snd] in *. subst r1.
  destruct (Hk s1) as (evs2 & Hr2 & Ht2 & Hg2 & Hc2 & Hq2).
  exists (evs1 ++ evs2). split; [exact Hr2|]. split; [|split; [|split]].
  - rewrite Ht2, Ht1, app_assoc. reflexivity.
  - congruence.
  - rewrite calls_app, Hc1, Hc2. reflexivity.
  - rewrite quiet_app, Hq1, Hq2. reflexivity.
Qed.

Lemma silent_for_each {A} (l : list A) (body : A → M W unit) :
  (∀ x, silent (body x)) → silent (for_each l body).
Proof.
  intros Hb. induction l as [|x l IH]; cbn [for_each].
  - apply silent_ret.
  - apply silent_bind; [apply Hb|exact IH].
Qed.

Lemma follows_silent {B} (m : M W unit) (k : unit → M W B) (q : phase)
      (Q : phase → res B → Prop) :
  silent m → follows args (k tt) q Q → follows args (m ≫= k) q Q.
Proof.
  intros Hm Hk. apply follows_bind with (Q1 := fun q1 r => q1 = q ∧ r = Ok tt).
  - intros s. destruct (Hm s) as (evs & Hr & Ht & Hg & Hc & Hq).
    exists evs, q. rewrite Hc, Hg, replay_quiet by exact Hq. cbn. auto.
  - intros q1 [] [-> _]. exact Hk.
  - intros q1 e [_ H]. discriminate H.
  - intros q1 [_ H]. discriminate H.
Qed.

Lemma follows_end {A} (m : M W A) (q : phase) (Q : phase → res A → Prop) :
  follows args (m ≫= fun a => mret a) q Q → follows args m q Q.
Proof.
  intros H s. specialize (H s). unfold mbind, M_bind, bind, mret, M_ret, ret in H.
  destruct (m s) as [s1 [a|e|]]; exact H.
Qed.

Lemma follows_silent_end (m : M W unit) (q : phase) (Q : phase → res unit → Prop) :
  silent m → Q q (Ok tt) → follows args m q Q.
Proof.
  intros Hm HQ. apply follows_end. apply follows_silent; [exact Hm|].
  apply follows_ret. exact HQ.
Qed.

Ltac machine_step :=
  eexists; split; [cbn; rewrite ?decide_True by auto; reflexivity|].

Lemma liveness_loop_follows (fuel : nat) :
  follows args (liveness_loop args env fuel) Streaming after_liveness.
Proof.
  induction fuel as [|fuel IH]; cbn [liveness_loop].
  - apply follows_timeout. reflexivity.
  - apply follows_await.
    + intros e. machine_step. reflexivity.
    + intros []. machine_step.
      apply follows_invoke.
      * intros e. machine_step. reflexivity.
      * intros [|]; machine_step; cbn [negb].
        -- exact IH.
        -- apply follows_raise. reflexivity.
Qed.

Lemma streaming_follows (fuel : nat) :
  follows args (streaming args env fuel) Streaming after_session.
Proof.
  unfold streaming.
  apply follows_bind with
    (Q1 := fun q r => match r with
                      | Ok _ => q = Unsubscribing
                      | Raise e => q = Closing (Some e)
                      | Timeout => q = Streaming
                      end).
  - apply follows_try_except with (Q1 := after_liveness).
    + apply liveness_loop_follows.
    + intros q1 e Hq Hc. apply follows_ret. cbn in Hq. unfold interrupted in Hq.
      rewrite Hc in Hq. exact Hq.
    + intros q1 e Hq Hc. cbn in Hq. unfold interrupted in Hq. rewrite Hc in Hq. exact Hq.
    + intros q1 a [].
    + intros q1 Hq. exact Hq.
  - intros q1 [] ->. apply follows_await.
    + intros e. machine_step. reflexivity.
    + intros []. machine_step. apply follows_end.
      apply follows_modify_subscribed. apply follows_ret. reflexivity.
  - intros q1 e Hq. exact Hq.
  - intros q1 Hq. exact Hq.
Qed.

Lemma session_follows (fuel : nat) :
  follows args (session args env fuel) (Configuring ListServices) after_session.
Proof.
  unfold session. apply follows_log. apply follows_invoke.
  - intros e. machine_step. reflexivity.
  - intros svcs. machine_step.
    apply follows_silent.
    { apply silent_for_each. intros svc. apply silent_bind; [apply silent_log|].
      apply silent_for_each. intros c. apply silent_log. }
    apply follows_await.
    + intros e. machine_step. reflexivity.
    + intros []. machine_step. apply follows_await.
      * intros e. machine_step. reflexivity.
      * intros []. machine_step. apply follows_log. apply follows_await.
        -- intros e. machine_step. reflexivity.
        -- intros []. machine_step. apply follows_modify_subscribed.
           apply streaming_follows.
Qed.

Lemma aexit_follows (pending : option exn) :
  follows args (aexit args env) (Closing pending)
    (fun q r => match r with
                | Ok _ => q = match pending with
                              | None => Discovering
                              | Some e => caught_or_halted e
                              end
                | Raise e' => q = caught_or_halted e'
                | Timeout => False
                end).
Proof.
  unfold aexit. apply follows_await.
  - intros e. destruct pending; machine_step; reflexivity.
  - intros []. destruct pending as [e|]; machine_step; apply follows_end;
      apply follows_modify_subscribed; apply follows_ret; reflexivity.
Qed.

Lemma async_with_client_follows (dev : device) (body : M W unit) :
  follows args body (Configuring ListServices) after_session →
  follows args (async_with_client args env dev body) (Connecting dev) after_attempt.
Proof.
  intros Hbody. unfold async_with_client. apply follows_await.
  - intros e. machine_step. reflexivity.
  - intros []. machine_step.
    apply follows_leaving with (Q1 := after_session).
    + exact Hbody.
    + intros q1 a ->. eapply follows_bind; [apply aexit_follows| | |].
      * intros q2 [] ->. apply follows_ret. reflexivity.
      * intros q2 e ->. reflexivity.
      * intros q2 [].
    + intros q1 e ->. eapply follows_bind; [apply aexit_follows| | |].
      * intros q2 [] ->. apply follows_raise. reflexivity.
      * intros q2 e' ->. reflexivity.
      * intros q2 [].
    + intros q1 ->. reflexivity.
Qed.

Lemma scan_devices_follows :
  follows args (scan_devices args env) Discovering
    (fun q r => match r with
                | Ok _ => q = Resolving
                | Raise e => q = caught_or_halted e
                | Timeout => False
                end).
Proof.
  unfold scan_devices. apply follows_log. apply follows_await.
  - intros e. machine_step. reflexivity.
  - intros devices. machine_step. apply follows_silent_end; [|reflexivity].
    apply silent_for_each. intros da.
    apply silent_bind; [apply silent_log|].
    apply silent_bind; apply silent_log.
Qed.

Lemma attempt_follows (fuel : nat) :
  follows args (attempt args env fuel) Discovering after_attempt.
Proof.
  unfold attempt. apply follows_log.
  eapply follows_bind; [apply scan_devices_follows| | |].
  - intros q1 [] ->. apply follows_await.
    + intros e. machine_step. reflexivity.
    + intros [dev|]; machine_step.
      * apply follows_log. apply async_with_client_follows. apply session_follows.
      * apply follows_raise. reflexivity.
  - intros q1 e ->. reflexivity.
  - intros q1 [].
Qed.

Lemma retry_follows (e : exn) :
  follows args (retry args env e) RetryDelay
    (fun q r => match r with
                | Ok _ => q = Discovering
                | Raise e' => q = Halted e'
                | Timeout => False
                end).
Proof.
  unfold retry. do 3 apply follows_log. apply follows_end. apply follows_await.
  - intros e'. machine_step. reflexivity.
  - intros []. machine_step. apply follows_ret. reflexivity.
Qed.

Lemma main_iteration_follows (fuel : nat) :
  follows args (main_iteration args env fuel) Discovering after_iteration.
Proof.
  unfold main_iteration. apply follows_try_except with (Q1 := after_attempt).
  - apply attempt_follows.
  - intros q1 e Hq Hc. cbn in Hq. unfold caught_or_halted in Hq. rewrite Hc in Hq.
    subst q1. eapply follows_weaken; [apply retry_follows|].
    intros q' [[]|e'|]; cbn; tauto.
  - intros q1 e Hq Hc. cbn in Hq. unfold caught_or_halted in Hq. rewrite Hc in Hq.
    exact Hq.
  - intros q1 a Hq. exact Hq.
  - intros q1 Hq. exact Hq.
Qed.

(** Every run of [main] is a run of the machine from [Discovering]. *)
Lemma main_follows (fuel : nat) :
  follows args (main args env fuel) Discovering after_main.
Proof.
  induction fuel as [|fuel IH]; cbn [main].
  - apply follows_timeout. left. reflexivity.
  - eapply follows_bind; [apply main_iteration_follows| | |].
    + intros q1 [] ->. exact IH.
    + intros q1 e ->. reflexivity.
    + intros q1 ->. right. reflexivity.
Qed.
End Supervisor.

(** ** The machine, read backwards *)

Lemma sup_run_split (q0 qf : phase) (pre post : list (action * outcome)) (c : action * outcome) :
  sup_run q0 (pre ++ c :: post) = Some qf →
  ∃ q q1, sup_run q0 pre = Some q ∧ sup_step q c = Some q1 ∧ sup_run q1 post = Some qf.
Proof.
  rewrite sup_run_app. destruct (sup_run q0 pre) as [q|]; [|discriminate].
  cbn [sup_run]. destruct (sup_step q c) as [q1|] eqn:Hs; [|discriminate].
  intros H. exists q, q1. auto.
Qed.

Lemma sup_run_last (q0 q : phase) (h : list (action * outcome)) :
  sup_run q0 h = Some q →
  (h = [] ∧ q = q0) ∨
  ∃ h' c q1, h = h' ++ [c] ∧ sup_run q0 h' = Some q1 ∧ sup_step q1 c = Some q.
Proof.
  destruct h as [|c h] using rev_ind.
  - cbn. intros [= <-]. left. auto.
  - intros H. right. apply sup_run_split in H as (q1 & q2 & H1 & H2 & H3).
    cbn in H3. injection H3 as <-. exists h, c, q1. auto.
Qed.

Ltac step_cases H :=
  match type of H with
  | sup_step ?q ?c = Some _ =>
      destruct q as [| | ? |[| |]| | | | |[?|]| | ?]; destruct c as [[] []];
      cbn in H; unfold caught_or_halted, interrupted in H;
      repeat case_match; simplify_eq
  end.

Lemma step_into_Subscribing (q : phase) (c : action * outcome) :
  sup_step q c = Some Subscribing →
  q = Configuring EnableRealtime ∧
  c = (WriteGattChar settings_characteristic enable_realtime, Returned).
Proof.
  intros H. step_cases H. destruct_and!. subst. auto.
Qed.

Lemma step_into_EnableRealtime (q : phase) (c : action * outcome) :
  sup_step q c = Some (Configuring EnableRealtime) →
  q = Configuring SelectCelsius ∧
  c = (WriteGattChar settings_characteristic use_celsius, Returned).
Proof.
  intros H. step_cases H. destruct_and!. subst. auto.
Qed.

Lemma step_into_SelectCelsius (q : phase) (c : action * outcome) :
  sup_step q c = Some (Configuring SelectCelsius) →
  q = Configuring ListServices ∧ c = (Services, Returned).
Proof.
  intros H. step_cases H. auto.
Qed.

Lemma step_into_ListServices (q : phase) (c : action * outcome) :
  sup_step q c = Some (Configuring ListServices) →
  ∃ dev, q = Connecting dev ∧ c = (Connect dev, Returned).
Proof.
  intros H. step_cases H. eauto.
Qed.

Lemma step_into_Polling (q : phase) (c : action * outcome) :
  sup_step q c = Some Polling → q = Streaming ∧ c = (Sleep 5, Returned).
Proof.
  intros H. step_cases H. auto.
Qed.

Lemma step_on_StartNotify (q q' : phase) (char : string) (o : outcome) :
  sup_step q (StartNotify char, o) = Some q' → q = Subscribing ∧ char = data_characteristic.
Proof.
  intros H. destruct q as [| | ? |[| |]| | | | |[?|]| | ?]; destruct o;
    cbn in H; repeat case_match; simplify_eq; auto.
Qed.

Lemma step_on_WriteGattChar (q q' : phase) (char : string) (data : bytes) (o : outcome) :
  sup_step q (WriteGattChar char data, o) = Some q' →
  char = settings_characteristic ∧
  ((q = Configuring SelectCelsius ∧ data = use_celsius) ∨
   (q = Configuring EnableRealtime ∧ data = enable_realtime)).
Proof.
  intros H. destruct q as [| | ? |[| |]| | | | |[?|]| | ?]; destruct o;
    cbn in H; repeat case_match; simplify_eq; destruct_and!; auto.
Qed.

Lemma step_on_poll_false (q q' : phase) :
  sup_step q (IsConnected, ReturnedBool false) = Some q' →
  q = Polling ∧ q' = Closing (Some Disconnected).
Proof.
  intros H. destruct q as [| | ? |[| |]| | | | |[?|]| | ?];
    cbn in H; repeat case_match; simplify_eq; auto.
Qed.

Lemma step_on_not_found (q q' : phase) (addr : option string) :
  sup_step q (FindDeviceByAddress addr, ReturnedDevice None) = Some q' → q' = RetryDelay.
Proof.
  intros H. destruct q as [| | ? |[| |]| | | | |[?|]| | ?];
    cbn in H; repeat case_match; simplify_eq; auto.
Qed.

(** An [Exception] raised by a call of the path leads to the delay, through
    the closing of the connection when one is open. *)
Lemma step_on_Exception (q q' : phase) (a : action) (e : exn) :
  sup_step q (a, Raised e) = Some q' → is_Exception e = true → q ≠ RetryDelay →
  q' = RetryDelay ∨ q' = Closing (Some e).
Proof.
  intros H He Hq.
  destruct q as [| | ? |[| |]| | | | |[?|]| | ?]; destruct a;
    cbn in H; unfold caught_or_halted, interrupted in H; rewrite ?He in H;
    destruct e; try discriminate He; cbn in H;
    repeat case_match; simplify_eq; auto.
Qed.

Lemma step_from_RetryDelay (c : action * outcome) (q : phase) :
  sup_step RetryDelay c = Some q →
  (c = (Sleep 5, Returned) ∧ q = Discovering) ∨ ∃ e, c = (Sleep 5, Raised e) ∧ q = Halted e.
Proof.
  intros H. destruct c as [[] []]; cbn in H; repeat case_match; simplify_eq; eauto.
Qed.

Lemma step_from_Discovering (c : action * outcome) (q : phase) :
  sup_step Discovering c = Some q → ∃ o, c = (Discover, o).
Proof.
  intros H. destruct c as [[] []]; cbn in H; simplify_eq; eauto.
Qed.

Lemma step_from_Closing (pending : exn) (c : action * outcome) (q : phase) :
  sup_step (Closing (Some pending)) c = Some q →
  ∃ o, c = (Disconnect, o) ∧
       match o with
       | Raised e => q = caught_or_halted e
       | _ => q = caught_or_halted pending
       end.
Proof.
  intros H. destruct c as [[] []]; cbn in H; simplify_eq;
    (eexists; split; [reflexivity|reflexivity]).
Qed.

Lemma run_from_Halted (e : exn) (post : list (action * outcome)) (q : phase) :
  sup_run (Halted e) post = Some q → post = [].
Proof.
  destruct post as [|c post]; [reflexivity|]. cbn. discriminate.
Qed.

Lemma after_main_resting (q : phase) (r : res unit) : after_main q r → resting q.
Proof.
  destruct r as [[]|e|]; cbn; [tauto| |].
  - intros ->. exact I.
  - intros [-> | ->]; exact I.
Qed.

Lemma run_from_RetryDelay (post : list (action * outcome)) (q : phase) :
  sup_run RetryDelay post = Some q → resting q → delay_then_discover post.
Proof.
  intros Hrun Hq. destruct post as [|c post]; cbn [sup_run] in Hrun.
  - injection Hrun as <-. destruct Hq.
  - destruct (sup_step RetryDelay c) as [q1|] eqn:Hs; [|discriminate].
    apply step_from_RetryDelay in Hs as [[-> ->] | (e & -> & ->)].
    + exists Returned, post. split; [reflexivity|]. intros _.
      destruct post as [|c' post']; [left; reflexivity|right].
      cbn [sup_run] in Hrun. destruct (sup_step Discovering c') as [q2|] eqn:Hs'; [|discriminate].
      apply step_from_Discovering in Hs' as (o' & ->). eauto.
    + exists (Raised e), post. split; [reflexivity|]. intros [=].
Qed.

Lemma run_from_Closing (pending : exn) (post : list (action * outcome)) (q : phase) :
  sup_run (Closing (Some pending)) post = Some q → resting q →
  is_Exception pending = true → closed_then_retried post.
Proof.
  intros Hrun Hq Hp. destruct post as [|c post]; cbn [sup_run] in Hrun.
  - injection Hrun as <-. destruct Hq.
  - destruct (sup_step (Closing (Some pending)) c) as [q1|] eqn:Hs; [|discriminate].
    apply step_from_Closing in Hs as (o & -> & Ho).
    exists o, post. split; [reflexivity|].
    destruct o as [| | |e].
    1-3: right; subst q1; unfold caught_or_halted in Hrun; rewrite Hp in Hrun;
         eapply run_from_RetryDelay; eauto.
    subst q1. unfold caught_or_halted in Hrun. destruct (is_Exception e) eqn:He.
    + right. eapply run_from_RetryDelay; eauto.
    + left. exists e. split; [reflexivity|]. split; [exact He|].
      eapply run_from_Halted; eauto.
Qed.

(** ** The claims on the supervisor *)

Section SupervisorClaims.
Context {W : Type}.
Variable args : Namespace.
Variable env : Env W.

(** A run of [main], in terms of the events it added. *)
Lemma main_history (fuel : nat) (s : state W) :
  let s' := fst (main args env fuel s) in
  let r := snd (main args env fuel s) in
  ∃ q, sup_run Discovering (calls (new_events s s')) = Some q ∧ after_main q r ∧
       registry s' = replay args (new_events s s') (registry s).
Proof.
  cbv zeta. destruct (main_follows args env fuel s) as (evs & q & Ht & Hr & Hq & HQ).
  rewrite (new_events_app _ _ _ Ht). exists q. auto.
Qed.

(** The calls that lead to the subscription. *)
Lemma history_to_Subscribing (pre : list (action * outcome)) :
  sup_run Discovering pre = Some Subscribing →
  ∃ pre' dev,
    pre = pre' ++ [(Connect dev, Returned); (Services, Returned);
                   (WriteGattChar settings_characteristic use_celsius, Returned);
                   (WriteGattChar settings_characteristic enable_realtime, Returned)].
Proof.
  intros H4.
  apply sup_run_last in H4 as [[_ [=]] | (h3 & c4 & q3 & -> & H3 & Hs4)].
  apply step_into_Subscribing in Hs4 as [-> ->].
  apply sup_run_last in H3 as [[_ [=]] | (h2 & c3 & q2 & -> & H2 & Hs3)].
  apply step_into_EnableRealtime in Hs3 as [-> ->].
  apply sup_run_last in H2 as [[_ [=]] | (h1 & c2 & q1 & -> & H1 & Hs2)].
  apply step_into_SelectCelsius in Hs2 as [-> ->].
  apply sup_run_last in H1 as [[_ [=]] | (h0 & c1 & q0 & -> & H0 & Hs1)].
  apply step_into_ListServices in Hs1 as (dev & -> & ->).
  exists h0, dev. rewrite <- !app_assoc. reflexivity.
Qed.

(** C6. In every run, a subscription is the call that follows, in this order
    and within the same connection, the write that selects Celsius and the
    write that enables streaming, both completed; and the write that enables
    streaming, whatever its outcome, follows the completed write that selects
    Celsius. *)
Theorem configuration_precedes_subscription (fuel : nat) (s : state W) :
  let h := calls (new_events s (fst (main args env fuel s))) in
  (∀ pre char o post,
     h = pre ++ (StartNotify char, o) :: post →
     ∃ pre' dev,
       pre = pre' ++ [(Connect dev, Returned); (Services, Returned);
                      (WriteGattChar settings_characteristic use_celsius, Returned);
                      (WriteGattChar settings_characteristic enable_realtime, Returned)]) ∧
  (∀ pre char o post,
     h = pre ++ (WriteGattChar char enable_realtime, o) :: post →
     ∃ pre', pre = pre' ++ [(WriteGattChar settings_characteristic use_celsius, Returned)]).
Proof.
  cbv zeta. destruct (main_history fuel s) as (q & Hrun & _ & _). cbv zeta in *.
  split.
  - intros pre char o post Hh. rewrite Hh in Hrun.
    apply sup_run_split in Hrun as (q0 & q1 & Hq0 & Hstep & _).
    apply step_on_StartNotify in Hstep as [-> _].
    apply history_to_Subscribing. exact Hq0.
  - intros pre char o post Hh. rewrite Hh in Hrun.
    apply sup_run_split in Hrun as (q0 & q1 & Hq0 & Hstep & _).
    apply step_on_WriteGattChar in Hstep as [_ [[_ Hd] | [-> _]]]; [discriminate Hd|].
    apply sup_run_last in Hq0 as [[_ [=]] | (h' & c & q' & -> & Hq' & Hs)].
    apply step_into_EnableRealtime in Hs as [-> ->]. eauto.
Qed.
End SupervisorClaims.

(** ** The claims on the supervisor, in the scripted environment *)

Lemma configuration_precedes_subscription_witness :
  let pre := firstn 10 demo_calls in
  let post := skipn 11 demo_calls in
  demo_calls = pre ++ (StartNotify data_characteristic, Returned) :: post ∧
  ∃ pre' dev,
    pre = pre' ++ [(Connect dev, Returned); (Services, Returned);
                   (WriteGattChar settings_characteristic use_celsius, Returned);
                   (WriteGattChar settings_characteristic enable_realtime, Returned)].
Proof.
  cbv zeta. unfold demo_calls, demo_events, demo_run.
  pose proof (configuration_precedes_subscription two_names demo_env demo_fuel
                (initial_state 0%nat)) as H.
  cbv zeta in H. destruct H as (Hsub & _).
  match goal with
  | |- ?h = ?l ∧ _ => assert (Hsplit : h = l) by (vm_compute; reflexivity)
  end.
  split; [exact Hsplit|].
  exact (Hsub _ _ _ _ Hsplit).
Defined.

(** * Further properties of the code *)

(** ** The decoder *)

Lemma int_from_bytes_little_zeros (l : bytes) :
  Forall (eq Byte.x00) l → int_from_bytes_little l = 0.
Proof.
  induction 1 as [|b l Hb _ IH]; [reflexivity|].
  cbn [int_from_bytes_little]. rewrite IH, <- Hb. reflexivity.
Qed.

Lemma int_from_bytes_little_app (l1 l2 : bytes) :
  int_from_bytes_little (l1 ++ l2)
  = int_from_bytes_little l1 + 256 ^ Z.of_nat (length l1) * int_from_bytes_little l2.
Proof.
  induction l1 as [|b l1 IH]; cbn [int_from_bytes_little app length].
  - change (Z.of_nat 0) with 0. lia.
  - rewrite IH, Nat2Z.inj_succ, Z.pow_succ_r by lia. lia.
Qed.

(** X1. Zero bytes after the input do not change what the decoder returns:
    the input is little-endian, so a one-byte window reads as its byte and
    the empty window as zero. *)
Theorem bytes_to_temperature_trailing_zeros {W} (data : bytes) (n : nat) (s : state W) :
  bytes_to_temperature (data ++ repeat Byte.x00 n) s = bytes_to_temperature data s.
Proof.
  rewrite !bytes_to_temperature_run, int_from_bytes_little_app.
  rewrite (int_from_bytes_little_zeros (repeat Byte.x00 n)).
  - rewrite Z.mul_0_r, Z.add_0_r. reflexivity.
  - induction n as [|n IH]; cbn [repeat]; constructor; auto.
Qed.

(** *** A reading can be read back from the float *)

Lemma byte_val_inj (b c : Byte.byte) : byte_val b = byte_val c → b = c.
Proof.
  unfold byte_val. intros H. apply N2Z.inj in H.
  pose proof (Byte.of_to_N b) as Hb. rewrite H, Byte.of_to_N in Hb. congruence.
Qed.

Lemma binary_round_aux_sign (sx : bool) (m e : Z) (l : location) :
  0 <= m →
  binary_round_aux prec emax sx m e l = S754_zero sx ∨
  (∃ m' e', binary_round_aux prec emax sx m e l = S754_finite sx m' e') ∨
  binary_round_aux prec emax sx m e l = S754_infinity sx.
Proof.
  intros Hm. unfold binary_round_aux.
  pose proof (shr_fexp_spec m e l Hm) as [_ Hm1].
  destruct (shr_fexp prec emax m e l) as [mrs1 e1]. cbn [fst snd] in Hm1.
  assert (Hm1lo : 0 <= shr_m mrs1).
  { rewrite Hm1. apply Z.div_pos; [lia|]. apply Z.pow_pos_nonneg; [lia|].
    unfold fexp, SpecFloat.emin, prec, emax. lia. }
  pose proof (round_nearest_even_range (shr_m mrs1) (loc_of_shr_record mrs1)) as Hr.
  set (m2 := round_nearest_even (shr_m mrs1) (loc_of_shr_record mrs1)) in *.
  pose proof (shr_fexp_spec m2 e1 loc_Exact ltac:(lia)) as [_ Hm3].
  destruct (shr_fexp prec emax m2 e1 loc_Exact) as [mrs2 e2]. cbn [fst snd] in Hm3.
  assert (Hm3lo : 0 <= shr_m mrs2).
  { rewrite Hm3. apply Z.div_pos; [lia|]. apply Z.pow_pos_nonneg; [lia|].
    unfold fexp, SpecFloat.emin, prec, emax. lia. }
  destruct (shr_m mrs2) as [|p|p]; [auto| |lia].
  destruct (e2 <=? emax - prec); eauto.
Qed.

Lemma int_truediv_tenths (v : Z) :
  0 <= v < 65536 → ∃ q, int_truediv v 10 = Ok (PyFloat q) ∧ tenths q = v.
Proof.
  intros Hv. rewrite int_truediv_10_ok by lia. eexists. split; [reflexivity|].
  destruct v as [|p|p]; [reflexivity| |lia].
  cbn [exact_of_int SFdiv xorb]. unfold SFdiv_core_binary.
  set (d := Zdigits2 (Z.pos p)).
  assert (Hd : 1 <= d <= 16).
  { unfold d. split; [simpl; lia|]. apply Zdigits2_le; lia. }
  pose proof (Zdigits2_gt (Z.pos p) ltac:(lia)) as Hphi.
  pose proof (Zdigits2_le_pow (Z.pos p) ltac:(lia)) as Hplo. fold d in Hphi, Hplo.
  change (Zdigits2 10) with 4.
  assert (He' : Z.min (fexp prec emax (d + 0 - (4 + 0))) (0 - 0) = d - 57).
  { unfold fexp, SpecFloat.emin, prec, emax. lia. }
  rewrite He'.
  set (a := Z.pos p * 2 ^ (57 - d)).
  assert (HL : match 0 - 0 - (d - 57) with
               | 0 => Z.pos p
               | Z.pos _ => Z.shiftl (Z.pos p) (0 - 0 - (d - 57))
               | Z.neg _ => 0
               end = a).
  { destruct (0 - 0 - (d - 57)) as [|n|n] eqn:Hs; [lia| |lia].
    rewrite Z.shiftl_mul_pow2 by lia. unfold a. f_equal. f_equal. lia. }
  rewrite HL.
  assert (Ha : 2 ^ 56 <= a < 2 ^ 57).
  { unfold a. split.
    - replace 56 with ((d - 1) + (57 - d)) by lia. rewrite Z.pow_add_r by lia.
      apply Z.mul_le_mono_nonneg_r; [apply Z.pow_nonneg|]; lia.
    - replace 57 with (d + (57 - d)) at 2 by lia. rewrite Z.pow_add_r by lia.
      apply Z.mul_lt_mono_pos_r; [apply Z.pow_pos_nonneg|]; lia. }
  pose proof (Z_div_mod a 10 ltac:(lia)) as Hqr.
  destruct (Z.div_eucl a 10) as [q0 r0]. destruct Hqr as [Hq0 Hr0].
  change (2 ^ 56) with 72057594037927936 in Ha.
  change (2 ^ 57) with 144115188075855872 in Ha.
  assert (Hq0r : 2 ^ 52 < q0 < 2 ^ 54).
  { change (2 ^ 52) with 4503599627370496. change (2 ^ 54) with 18014398509481984. lia. }
  unfold binary_round_aux.
  pose proof (shr_fexp_spec q0 (d - 57) (new_location 10 r0) ltac:(lia)) as [He1 Hm1].
  destruct (shr_fexp prec emax q0 (d - 57) (new_location 10 r0)) as [mrs1 e1].
  cbn [fst snd] in He1, Hm1. rewrite <- He1 in Hm1.
  set (D0 := Zdigits2 q0) in *.
  assert (HD0 : D0 = 53 ∨ D0 = 54).
  { pose proof (Zdigits2_le q0 54 ltac:(lia) ltac:(lia) ltac:(lia)) as Hle.
    pose proof (Zdigits2_gt q0 ltac:(lia)) as Hgt. fold D0 in Hle, Hgt.
    assert (H : 2 ^ 52 < 2 ^ D0) by lia.
    pose proof (Zdigits2_nonneg q0). fold D0 in H0.
    apply Z.pow_lt_mono_r_iff in H; lia. }
  assert (He1' : e1 = d - 57 + (D0 - 53)).
  { rewrite He1. unfold fexp, SpecFloat.emin, prec, emax. lia. }
  clear He1.
  set (m1 := shr_m mrs1) in *.
  assert (Hm1r : 2 ^ 52 <= m1 < 2 ^ 53 ∧ 2 ^ (D0 - 53) * m1 <= q0 < 2 ^ (D0 - 53) * m1 + 2 ^ (D0 - 53)).
  { rewrite Hm1. replace (e1 - (d - 57)) with (D0 - 53) by lia.
    pose proof (Zdigits2_gt q0 ltac:(lia)) as Hgt.
    pose proof (Zdigits2_le_pow q0 ltac:(lia)) as Hlo. fold D0 in Hgt, Hlo.
    destruct HD0 as [-> | ->].
    - change (2 ^ (53 - 53)) with 1. rewrite Z.div_1_r.
      change (53 - 1) with 52 in Hlo. lia.
    - change (2 ^ (54 - 53)) with 2.
      change (2 ^ (54 - 1)) with 9007199254740992 in Hlo.
      change (2 ^ 54) with 18014398509481984 in Hgt.
      change (2 ^ 52) with 4503599627370496. change (2 ^ 53) with 9007199254740992.
      pose proof (Z.mul_div_le q0 2 ltac:(lia)).
      pose proof (Z.mul_succ_div_gt q0 2 ltac:(lia)). lia. }
  pose proof (round_nearest_even_range m1 (loc_of_shr_record mrs1)) as Hr.
  set (m2 := round_nearest_even m1 (loc_of_shr_record mrs1)) in *.
  pose proof (shr_fexp_spec m2 e1 loc_Exact ltac:(lia)) as [He2 Hm3].
  destruct (shr_fexp prec emax m2 e1 loc_Exact) as [mrs2 e2].
  cbn [fst snd] in He2, Hm3. rewrite <- He2 in Hm3.
  set (D2 := Zdigits2 m2) in *.
  assert (HD2 : D2 = 53 ∨ D2 = 54).
  { assert (Hm2 : 2 ^ 52 <= m2 < 2 ^ 54).
    { change (2 ^ 52) with 4503599627370496 in *.
      change (2 ^ 53) with 9007199254740992 in *.
      change (2 ^ 54) with 18014398509481984. lia. }
    pose proof (Zdigits2_le m2 54 ltac:(lia) ltac:(lia) ltac:(lia)) as Hle.
    pose proof (Zdigits2_gt m2 ltac:(lia)) as Hgt. fold D2 in Hle, Hgt.
    assert (H : 2 ^ 52 < 2 ^ D2) by lia.
    pose proof (Zdigits2_nonneg m2). fold D2 in H0.
    apply Z.pow_lt_mono_r_iff in H; lia. }
  assert (He2' : e2 = e1 + (D2 - 53)).
  { rewrite He2. unfold fexp, SpecFloat.emin, prec, emax. lia. }
  clear He2.
  set (m3 := shr_m mrs2) in *.
  assert (Hm3r : 2 ^ (D2 - 53) * m3 <= m2 < 2 ^ (D2 - 53) * m3 + 2 ^ (D2 - 53)).
  { rewrite Hm3. replace (e2 - e1) with (D2 - 53) by lia.
    destruct HD2 as [-> | ->].
    - change (2 ^ (53 - 53)) with 1. rewrite Z.div_1_r. lia.
    - change (2 ^ (54 - 53)) with 2.
      pose proof (Z.mul_div_le m2 2 ltac:(lia)).
      pose proof (Z.mul_succ_div_gt m2 2 ltac:(lia)). lia. }
  clearbody m1 m2 m3 D0 D2. clear Hm1 Hm3 HL He'.
  set (T := 2 ^ (- e2)).
  assert (HT : 2 ^ 39 <= T).
  { unfold T. apply Z.pow_le_mono_r; lia. }
  assert (HW : 2 ^ (57 - d) = T * 2 ^ (D0 - 53) * 2 ^ (D2 - 53)).
  { unfold T. rewrite <- !Z.pow_add_r by lia. f_equal. lia. }
  set (X := Z.pos p * T).
  assert (HaX : a = X * 2 ^ (D0 - 53) * 2 ^ (D2 - 53)).
  { unfold a, X. rewrite HW. ring. }
  clearbody a. clear HW Hphi Hplo.
  change (2 ^ 39) with 549755813888 in HT.
  change (2 ^ 52) with 4503599627370496 in *.
  change (2 ^ 53) with 9007199254740992 in *.
  assert (Hm3pos : 0 < m3).
  { destruct HD2 as [-> | ->].
    - change (2 ^ (53 - 53)) with 1 in Hm3r. lia.
    - change (2 ^ (54 - 53)) with 2 in Hm3r. lia. }
  destruct m3 as [|m|m]; [lia| |lia].
  change (emax - prec) with 971.
  destruct (Z.leb_spec e2 971) as [_|Hgt]; [|lia].
  cbn [tenths]. destruct (Z.leb_spec 0 e2) as [Hge|_]; [lia|].
  replace (2 ^ (1 - e2)) with (2 * T)
    by (unfold T; replace (1 - e2) with (Z.succ (- e2)) by lia;
        rewrite Z.pow_succ_r by lia; reflexivity).
  fold T. symmetry.
  apply Z.div_unique with (r := 20 * Z.pos m + T - 2 * X); [|unfold X; ring].
  left.
  destruct HD0 as [-> | ->], HD2 as [-> | ->];
    change (2 ^ (53 - 53)) with 1 in *; change (2 ^ (54 - 53)) with 2 in *; lia.
Qed.

(** X2. A reading other than the sentinel can be read back from the float the
    decoder returns: ten times the float, rounded, is the raw value.  So two
    different readings never decode to the same temperature. *)
Theorem reading_recoverable {W} (b0 b1 c0 c1 : Byte.byte) (s : state W) :
  let v := byte_val b0 + 256 * byte_val b1 in
  let w := byte_val c0 + 256 * byte_val c1 in
  v ≠ 0xffff →
  (∃ q, bytes_to_temperature [b0; b1] s = (s, Ok (PyFloat q)) ∧ tenths q = v) ∧
  (w ≠ 0xffff →
   bytes_to_temperature [b0; b1] s = bytes_to_temperature [c0; c1] s →
   b0 = c0 ∧ b1 = c1).
Proof.
  intros v w Hv.
  pose proof (byte_val_range b0) as Hb0. pose proof (byte_val_range b1) as Hb1.
  pose proof (byte_val_range c0) as Hc0. pose proof (byte_val_range c1) as Hc1.
  assert (Hraw : ∀ x y, int_from_bytes_little [x; y] = byte_val x + 256 * byte_val y).
  { intros x y. cbn [int_from_bytes_little]. lia. }
  destruct (int_truediv_tenths v ltac:(unfold v; lia)) as (q & Hq & Htq).
  destruct (int_truediv_tenths w ltac:(unfold w; lia)) as (q' & Hq' & Htq').
  split.
  - exists q. rewrite bytes_to_temperature_run, Hraw. fold v.
    destruct (Z.eqb_spec v 0xffff) as [|_]; [contradiction|]. rewrite Hq. auto.
  - intros Hw. rewrite !bytes_to_temperature_run, !Hraw. fold v w.
    destruct (Z.eqb_spec v 0xffff) as [|_]; [contradiction|].
    destruct (Z.eqb_spec w 0xffff) as [|_]; [contradiction|].
    rewrite Hq, Hq'. intros [= Heq]. subst q'.
    assert (Hvw : v = w) by congruence. unfold v, w in Hvw.
    assert (byte_val b0 = byte_val c0 ∧ byte_val b1 = byte_val c1) as [H0 H1] by lia.
    split; apply byte_val_inj; assumption.
Qed.

Lemma reading_recoverable_witness :
  byte_val Byte.x01 + 256 * byte_val Byte.x00 ≠ 0xffff ∧
  (∃ q, bytes_to_temperature [Byte.x01; Byte.x00] (initial_state tt)
        = (initial_state tt, Ok (PyFloat q)) ∧
        tenths q = byte_val Byte.x01 + 256 * byte_val Byte.x00) ∧
  (byte_val Byte.x01 + 256 * byte_val Byte.x00 ≠ 0xffff →
   bytes_to_temperature [Byte.x01; Byte.x00] (initial_state tt)
   = bytes_to_temperature [Byte.x01; Byte.x00] (initial_state tt) →
   Byte.x01 = Byte.x01 ∧ Byte.x00 = Byte.x00).
Proof.
  assert (H : byte_val Byte.x01 + 256 * byte_val Byte.x00 ≠ 0xffff)
    by (vm_compute; discriminate).
  split; [exact H|].
  exact (reading_recoverable Byte.x01 Byte.x00 Byte.x01 Byte.x00 (initial_state tt) H).
Defined.

(** ** The handler *)

Lemma SFdiv_by_10_sign (p : positive) :
  let q := SFdiv prec emax (S754_finite false p 0) (S754_finite false 10 0) in
  q = S754_zero false ∨ (∃ m e, q = S754_finite false m e) ∨ q = S754_infinity false.
Proof.
  cbv zeta. cbn [SFdiv xorb]. unfold SFdiv_core_binary.
  set (e' := Z.min _ _).
  set (m' := match 0 - 0 - e' with 0 => _ | Z.pos _ => _ | Z.neg _ => _ end).
  assert (Hm' : 0 <= m').
  { unfold m'. destruct (0 - 0 - e') as [|n|n]; [lia| |lia].
    apply Z.shiftl_nonneg. lia. }
  pose proof (Z_div_mod m' 10 ltac:(lia)) as Hqr.
  destruct (Z.div_eucl m' 10) as [q r]. destruct Hqr as [Hq Hr].
  apply binary_round_aux_sign. lia.
Qed.

(** What [Gauge.set] stores of a decoded window is a reading. *)
Lemma bytes_to_temperature_reading {W} (data : bytes) (s : state W) (v : pyval) (f : float) :
  bytes_to_temperature data s = (s, Ok v) → float_of_pyval v = Ok f → is_reading f.
Proof.
  rewrite bytes_to_temperature_run. intros [= Hv] Hf.
  destruct (int_from_bytes_little data =? 0xffff).
  - injection Hv as <-. cbv in Hf. injection Hf as <-. exact I.
  - pose proof (int_from_bytes_little_range data) as [Hlo _].
    unfold int_truediv in Hv. change (10 =? 0) with false in Hv. cbv iota in Hv.
    destruct (int_from_bytes_little data) as [|p|p]; [| |lia].
    + cbv in Hv. injection Hv as <-. injection Hf as <-. exact I.
    + cbn [exact_of_int] in Hv.
      destruct (SFdiv_by_10_sign p) as [H | [(m & e & H) | H]]; cbv zeta in H;
        rewrite H in Hv; [| |discriminate Hv];
        injection Hv as <-; injection Hf as <-; exact I.
Qed.

(** X3. Whatever the payload, the two values the handler writes are readings:
    [+0.0] or finite and positive, never NaN, infinite or negative. *)
Theorem handler_writes_readings {W} (args : Namespace) (c : string) (data : bytes)
        (s : state W) :
  ∃ f1 f2,
    data_notify_handler args c data s = (handled args f1 f2 s, Ok tt) ∧
    is_reading f1 ∧ is_reading f2.
Proof.
  destruct (data_notify_handler_run args c data s)
    as (t1 & t2 & f1 & f2 & H1 & H2 & Hf1 & Hf2 & Hrun).
  exists f1, f2. split; [exact Hrun|]. split.
  - exact (bytes_to_temperature_reading _ _ _ _ H1 Hf1).
  - exact (bytes_to_temperature_reading _ _ _ _ H2 Hf2).
Qed.

(** X4. Of the registry the handler changes the two gauges and the timestamp
    only: the gauges of other labels keep their values, no gauge is removed,
    the labels known are the former ones and the two configured.  The
    environment, the clock and the subscription are as before. *)
Theorem handler_frame {W} (args : Namespace) (c : string) (data : bytes) (s : state W) :
  let s' := fst (data_notify_handler args c data s) in
  let l1 := str (probe1_name args) in
  let l2 := str (probe2_name args) in
  dom (temperature (registry s')) = {[l1; l2]} ∪ dom (temperature (registry s)) ∧
  (∀ l, l ≠ l1 → l ≠ l2 → temperature (registry s') !! l = temperature (registry s) !! l) ∧
  world s' = world s ∧ clock s' = clock s ∧ subscribed s' = subscribed s.
Proof.
  cbv zeta.
  destruct (data_notify_handler_run args c data s)
    as (t1 & t2 & f1 & f2 & _ & _ & _ & _ & Hrun).
  rewrite Hrun. cbn. split; [|split; [|auto]].
  - rewrite !dom_insert_L. apply set_eq. intros x.
    rewrite !elem_of_union, !elem_of_singleton. tauto.
  - intros l Hl1 Hl2. rewrite !lookup_insert_ne by congruence. reflexivity.
Qed.

(** The handler sees a payload through the raw values of its two windows. *)
Lemma handler_frame_witness :
  let s := fst (data_notify_handler no_names data_characteristic
                  [Byte.x01; Byte.x00; Byte.x02; Byte.x00] (initial_state tt)) in
  let s' := fst (data_notify_handler two_names data_characteristic
                   [Byte.x05; Byte.x00; Byte.x05; Byte.x00] s) in
  "None"%string ≠ str (probe1_name two_names) ∧
  "None"%string ≠ str (probe2_name two_names) ∧
  temperature (registry s') !! "None"%string = temperature (registry s) !! "None"%string.
Proof.
  cbv zeta.
  assert (H1 : "None"%string ≠ str (probe1_name two_names)) by (vm_compute; discriminate).
  assert (H2 : "None"%string ≠ str (probe2_name two_names)) by (vm_compute; discriminate).
  split; [exact H1|]. split; [exact H2|].
  exact (proj1 (proj2 (handler_frame two_names data_characteristic
                         [Byte.x05; Byte.x00; Byte.x05; Byte.x00] _)) _ H1 H2).
Defined.

Lemma handler_depends_on_raw {W} (args : Namespace) (c : string) (d d' : bytes) (s : state W) :
  int_from_bytes_little (slice d 0 2) = int_from_bytes_little (slice d' 0 2) →
  int_from_bytes_little (slice d 2 4) = int_from_bytes_little (slice d' 2 4) →
  data_notify_handler args c d s = data_notify_handler args c d' s.
Proof.
  intros H1 H2. unfold data_notify_handler. unfold_monad. unfold log, modify.
  cbv beta iota. rewrite !bytes_to_temperature_run, H1.
  destruct (if int_from_bytes_little (slice d' 0 2) =? 65535 then Ok (PyInt 0)
            else int_truediv (int_from_bytes_little (slice d' 0 2)) 10) as [t1| |];
    cbv beta iota; try reflexivity.
  rewrite ?bytes_to_temperature_run, H2. reflexivity.
Qed.

Lemma Forall_zero_repeat (n : nat) : Forall (eq Byte.x00) (repeat Byte.x00 n).
Proof. induction n as [|n IH]; cbn [repeat]; constructor; auto. Qed.

Lemma raw_window_padded (n m k : nat) (data : bytes) :
  int_from_bytes_little (firstn n (skipn m (data ++ repeat Byte.x00 k)))
  = int_from_bytes_little (firstn n (skipn m data)).
Proof.
  revert data n. induction m as [|m IHm]; intros data n.
  - rewrite !skipn_O. revert data. induction n as [|n IHn]; intros data; [reflexivity|].
    destruct data as [|b data].
    + cbn [app firstn int_from_bytes_little]. apply int_from_bytes_little_zeros.
      apply Forall_take. apply Forall_zero_repeat.
    + cbn [app firstn int_from_bytes_little]. rewrite IHn. reflexivity.
  - destruct data as [|b data].
    + cbn [app]. rewrite skipn_nil, firstn_nil.
      apply int_from_bytes_little_zeros. apply Forall_take, Forall_drop, Forall_zero_repeat.
    + cbn [app skipn]. apply IHm.
Qed.

(** X5. The handler reads a payload of any length as its first four bytes,
    with the bytes that are missing read as zero: bytes beyond the fourth
    are ignored, and a short payload is handled like the same payload
    followed by zeros. *)
Theorem handler_reads_four_bytes {W} (args : Namespace) (c : string) (data : bytes)
        (s : state W) :
  length (normalised data) = 4%nat ∧
  data_notify_handler args c data s = data_notify_handler args c (normalised data) s.
Proof.
  split.
  - unfold normalised. rewrite length_firstn, length_app, repeat_length. lia.
  - apply handler_depends_on_raw; unfold slice, normalised; cbn [Nat.sub].
    + rewrite !skipn_O, firstn_firstn. cbn [Nat.min].
      rewrite <- (skipn_O (data ++ _)), <- (skipn_O data) at 1.
      symmetry. apply raw_window_padded.
    + rewrite <- (firstn_skipn_comm 2 2), firstn_firstn. cbn [Nat.min].
      symmetry. apply raw_window_padded.
Qed.

(** X6. The registry keeps no history: after two notifications it is what the
    second alone would have left. *)
Theorem handler_last_reading_wins {W} (args : Namespace) (c1 c2 : string)
        (d1 d2 : bytes) (t2 : float) (s : state W) :
  let s1 := fst (data_notify_handler args c1 d1 s) in
  registry (fst (data_notify_handler args c2 d2 (set_clock t2 s1)))
  = registry (fst (data_notify_handler args c2 d2 (set_clock t2 s))).
Proof.
  cbv zeta.
  destruct (data_notify_handler_run args c1 d1 s)
    as (? & ? & f1 & f2 & _ & _ & _ & _ & Hrun1).
  rewrite Hrun1. cbn [fst].
  destruct (data_notify_handler_run args c2 d2 (set_clock t2 (handled args f1 f2 s)))
    as (u1 & u2 & g1 & g2 & Hu1 & Hu2 & Hg1 & Hg2 & Hrun2).
  destruct (data_notify_handler_run args c2 d2 (set_clock t2 s))
    as (u1' & u2' & g1' & g2' & Hu1' & Hu2' & Hg1' & Hg2' & Hrun2').
  rewrite Hrun2, Hrun2'.
  rewrite bytes_to_temperature_run in Hu1, Hu2, Hu1', Hu2'.
  assert (u1' = u1) by congruence. assert (u2' = u2) by congruence. subst u1' u2'.
  assert (g1' = g1) by congruence. assert (g2' = g2) by congruence. subst g1' g2'.
  cbn. f_equal. apply map_eq. intros l.
  destruct (decide (l = str (probe2_name args))) as [->|H2].
  - rewrite !lookup_insert_eq. reflexivity.
  - rewrite !(lookup_insert_ne _ (str (probe2_name args))) by congruence.
    destruct (decide (l = str (probe1_name args))) as [->|H1].
    + rewrite !lookup_insert_eq. reflexivity.
    + rewrite !lookup_insert_ne by congruence. reflexivity.
Qed.

(** ** The supervisor *)

Lemma step_into_Unsubscribing (q : phase) (c : action * outcome) :
  sup_step q c = Some Unsubscribing →
  (q = Streaming ∧ c = (Sleep 5, Raised KeyboardInterrupt)) ∨
  (q = Polling ∧ c = (IsConnected, Raised KeyboardInterrupt)).
Proof.
  intros H. step_cases H;
    match goal with
    | e : exn |- _ => destruct e; simplify_eq
    end; auto.
Qed.

Lemma step_into_Connecting (q : phase) (c : action * outcome) (dev : device) :
  sup_step q c = Some (Connecting dev) →
  q = Resolving ∧ ∃ addr, c = (FindDeviceByAddress addr, ReturnedDevice (Some dev)).
Proof.
  intros H. step_cases H. eauto.
Qed.

Lemma step_into_Resolving (q : phase) (c : action * outcome) :
  sup_step q c = Some Resolving → q = Discovering ∧ c = (Discover, Returned).
Proof.
  intros H. step_cases H. auto.
Qed.

Lemma step_on_StopNotify (q q' : phase) (char : string) (o : outcome) :
  sup_step q (StopNotify char, o) = Some q' → q = Unsubscribing ∧ char = data_characteristic.
Proof.
  intros H. destruct q as [| | ? |[| |]| | | | |[?|]| | ?]; destruct o;
    cbn in H; repeat case_match; simplify_eq; auto.
Qed.

Lemma step_on_IsConnected (q q' : phase) (o : outcome) :
  sup_step q (IsConnected, o) = Some q' → q = Polling.
Proof.
  intros H. destruct q as [| | ? |[| |]| | | | |[?|]| | ?]; destruct o;
    cbn in H; repeat case_match; simplify_eq; auto.
Qed.

Lemma step_on_Sleep (q q' : phase) (n : Z) (o : outcome) :
  sup_step q (Sleep n, o) = Some q' → n = 5 ∧ (q = Streaming ∨ q = RetryDelay).
Proof.
  intros H. destruct q as [| | ? |[| |]| | | | |[?|]| | ?]; destruct o;
    cbn in H; repeat case_match; simplify_eq; auto.
Qed.

Lemma step_on_Connect (q q' : phase) (dev : device) (o : outcome) :
  sup_step q (Connect dev, o) = Some q' → q = Connecting dev.
Proof.
  intros H. destruct q as [| | ? |[| |]| | | | |[?|]| | ?]; destruct o;
    cbn in H; repeat case_match; simplify_eq; auto.
Qed.

Lemma step_on_Discover (q q' : phase) (o : outcome) :
  sup_step q (Discover, o) = Some q' → q = Discovering.
Proof.
  intros H. destruct q as [| | ? |[| |]| | | | |[?|]| | ?]; destruct o;
    cbn in H; repeat case_match; simplify_eq; auto.
Qed.

Lemma step_from_Unsubscribing (c : action * outcome) (q : phase) :
  sup_step Unsubscribing c = Some q →
  ∃ o pending, c = (StopNotify data_characteristic, o) ∧ q = Closing pending ∧
               (o = Returned → pending = None).
Proof.
  intros H. destruct c as [[] []]; cbn in H; repeat case_match; simplify_eq;
    (eexists _, _; split; [reflexivity|split; [reflexivity|]]); auto; discriminate.
Qed.

Lemma step_from_Closing_any (pending : option exn) (c : action * outcome) (q : phase) :
  sup_step (Closing pending) c = Some q →
  ∃ o, c = (Disconnect, o) ∧ (o = Returned → pending = None → q = Discovering).
Proof.
  intros H. destruct pending, c as [[] []]; cbn in H; simplify_eq;
    (eexists; split; [reflexivity|]); auto; discriminate.
Qed.

Lemma step_balance (q q' : phase) (c : action * outcome) :
  sup_step q c = Some q' → connected_in q' = connected_in q + opened c.
Proof.
  intros H. step_cases H; reflexivity.
Qed.

Lemma run_balance (q q' : phase) (h : list (action * outcome)) :
  sup_run q h = Some q' → connected_in q' = connected_in q + open_connections h.
Proof.
  revert q. induction h as [|c h IH]; intros q; cbn [sup_run open_connections].
  - intros [= <-]. lia.
  - destruct (sup_step q c) as [q1|] eqn:Hs; [|discriminate].
    intros H. apply IH in H. apply step_balance in Hs. lia.
Qed.

Lemma connected_in_range (q : phase) : 0 <= connected_in q <= 1.
Proof. destruct q; cbn; lia. Qed.

Section SupervisorFurther.
Context {W : Type}.
Variable args : Namespace.
Variable env : Env W.

(** X7. The supervisor unsubscribes only after a keyboard interrupt in the
    liveness loop: every [stop_notify] call, made on the data characteristic,
    directly follows a sleep or a liveness read that raised
    [KeyboardInterrupt].  When the connection is lost or a call fails, no
    [stop_notify] is made. *)
Theorem unsubscribes_only_on_keyboard_interrupt (fuel : nat) (s : state W) :
  let h := calls (new_events s (fst (main args env fuel s))) in
  ∀ pre char o post,
    h = pre ++ (StopNotify char, o) :: post →
    char = data_characteristic ∧
    ∃ pre' a, pre = pre' ++ [(a, Raised KeyboardInterrupt)] ∧ (a = Sleep 5 ∨ a = IsConnected).
Proof.
  cbv zeta. intros pre char o post Hh.
  destruct (main_history args env fuel s) as (q & Hrun & _ & _). cbv zeta in Hrun.
  rewrite Hh in Hrun.
  apply sup_run_split in Hrun as (q0 & q1 & Hq0 & Hstep & _).
  apply step_on_StopNotify in Hstep as [-> ->]. split; [reflexivity|].
  apply sup_run_last in Hq0 as [[_ [=]] | (h' & c & q' & -> & _ & Hs)].
  apply step_into_Unsubscribing in Hs as [[_ ->] | [_ ->]]; eauto.
Qed.

(** X8. At most one connection is open at any time, and none is open when a
    scan starts or when a connection is opened: every connection that was
    opened gets its disconnect before the next turn. *)
Theorem one_connection_at_a_time (fuel : nat) (s : state W) :
  let h := calls (new_events s (fst (main args env fuel s))) in
  (∀ pre post, h = pre ++ post → 0 <= open_connections pre <= 1) ∧
  (∀ pre o post, h = pre ++ (Discover, o) :: post → open_connections pre = 0) ∧
  (∀ pre dev o post, h = pre ++ (Connect dev, o) :: post → open_connections pre = 0).
Proof.
  cbv zeta.
  destruct (main_history args env fuel s) as (q & Hrun & _ & _). cbv zeta in Hrun.
  split; [|split].
  - intros pre post Hh. rewrite Hh, sup_run_app in Hrun.
    destruct (sup_run Discovering pre) as [q1|] eqn:Hpre; [|discriminate].
    apply run_balance in Hpre. pose proof (connected_in_range q1). cbn in Hpre. lia.
  - intros pre o post Hh. rewrite Hh in Hrun.
    apply sup_run_split in Hrun as (q0 & q1 & Hq0 & Hstep & _).
    apply step_on_Discover in Hstep as ->.
    apply run_balance in Hq0. cbn in Hq0. lia.
  - intros pre dev o post Hh. rewrite Hh in Hrun.
    apply sup_run_split in Hrun as (q0 & q1 & Hq0 & Hstep & _).
    apply step_on_Connect in Hstep as ->.
    apply run_balance in Hq0. cbn in Hq0. lia.
Qed.

(** X9. The liveness flag is read only after a sleep that completed, and
    every sleep, in the liveness loop and before a retry, lasts 5 seconds:
    the delay does not grow with the number of failures. *)
Theorem polls_every_five_seconds (fuel : nat) (s : state W) :
  let h := calls (new_events s (fst (main args env fuel s))) in
  (∀ pre o post,
     h = pre ++ (IsConnected, o) :: post → ∃ pre', pre = pre' ++ [(Sleep 5, Returned)]) ∧
  (∀ n o, In (Sleep n, o) h → n = 5).
Proof.
  cbv zeta.
  destruct (main_history args env fuel s) as (q & Hrun & _ & _). cbv zeta in Hrun.
  split.
  - intros pre o post Hh. rewrite Hh in Hrun.
    apply sup_run_split in Hrun as (q0 & q1 & Hq0 & Hstep & _).
    apply step_on_IsConnected in Hstep as ->.
    apply sup_run_last in Hq0 as [[_ [=]] | (h' & c & q' & -> & _ & Hs)].
    apply step_into_Polling in Hs as [_ ->]. eauto.
  - intros n o Hin. apply in_split in Hin as (pre & post & Hh). rewrite Hh in Hrun.
    apply sup_run_split in Hrun as (q0 & q1 & _ & Hstep & _).
    apply step_on_Sleep in Hstep as [-> _]. reflexivity.
Qed.

End SupervisorFurther.

(** The properties above on the interrupted run: the tenth call is the sleep
    that raises [KeyboardInterrupt]. *)

Lemma unsubscribes_only_on_keyboard_interrupt_witness :
  let pre := firstn 10 interrupt_calls in
  let post := skipn 11 interrupt_calls in
  interrupt_calls = pre ++ (StopNotify data_characteristic, Returned) :: post ∧
  data_characteristic = data_characteristic ∧
  ∃ pre' a, pre = pre' ++ [(a, Raised KeyboardInterrupt)] ∧ (a = Sleep 5 ∨ a = IsConnected).
Proof.
  cbv zeta. unfold interrupt_calls, interrupt_run.
  pose proof (unsubscribes_only_on_keyboard_interrupt two_names interrupt_env demo_fuel
                (initial_state 0%nat)) as H.
  cbv zeta in H.
  match goal with
  | |- ?h = ?l ∧ _ => assert (Hsplit : h = l) by (vm_compute; reflexivity)
  end.
  split; [exact Hsplit|].
  exact (H _ _ _ _ Hsplit).
Defined.

Lemma one_connection_at_a_time_witness :
  let h := interrupt_calls in
  h = firstn 5 h ++ skipn 5 h ∧
  0 <= open_connections (firstn 5 h) <= 1 ∧
  h = firstn 12 h ++ (Discover, Returned) :: skipn 13 h ∧
  open_connections (firstn 12 h) = 0 ∧
  h = firstn 14 h ++ (Connect demo_device, Returned) :: skipn 15 h ∧
  open_connections (firstn 14 h) = 0.
Proof.
  cbv zeta. unfold interrupt_calls, interrupt_run.
  pose proof (one_connection_at_a_time two_names interrupt_env demo_fuel
                (initial_state 0%nat)) as H.
  cbv zeta in H. destruct H as (Hany & Hdiscover & Hconnect).
  match goal with
  | |- ?h = ?l1 ∧ _ ∧ ?h = ?l2 ∧ _ ∧ ?h = ?l3 ∧ _ =>
      assert (H1 : h = l1) by (vm_compute; reflexivity);
      assert (H2 : h = l2) by (vm_compute; reflexivity);
      assert (H3 : h = l3) by (vm_compute; reflexivity)
  end.
  split; [exact H1|]. split; [exact (Hany _ _ H1)|].
  split; [exact H2|]. split; [exact (Hdiscover _ _ _ H2)|].
  split; [exact H3|]. exact (Hconnect _ _ _ _ H3).
Defined.

Lemma polls_every_five_seconds_witness :
  let h := interrupt_calls in
  h = firstn 8 h ++ (IsConnected, ReturnedBool true) :: skipn 9 h ∧
  (∃ pre', firstn 8 h = pre' ++ [(Sleep 5, Returned)]) ∧
  In (Sleep 5, Raised KeyboardInterrupt) h ∧ 5 = 5.
Proof.
  cbv zeta. unfold interrupt_calls, interrupt_run.
  pose proof (polls_every_five_seconds two_names interrupt_env demo_fuel
                (initial_state 0%nat)) as H.
  cbv zeta in H. destruct H as (Hpoll & Hsleep).
  match goal with
  | |- ?h = ?l ∧ _ ∧ ?i ∧ _ =>
      assert (Hsplit : h = l) by (vm_compute; reflexivity);
      assert (Hin : i) by (vm_compute; tauto)
  end.
  split; [exact Hsplit|]. split; [exact (Hpoll _ _ _ Hsplit)|].
  split; [exact Hin|]. exact (Hsleep _ _ Hin).
Defined.


(** ** What the supervisor asks of the library

    A predicate on the calls is kept by every piece of the program whose own
    calls satisfy it: the handler and the log lines make no calls. *)

Section OnlyCalls.
Context {W : Type}.
Variable args : Namespace.
Variable env : Env W.
Variable P : action * outcome → Prop.

Lemma only_calls_ret {A} (a : A) : only_calls P (mret a : M W A).
Proof.
  intros s. exists []. cbn. rewrite app_nil_r. split; [reflexivity|constructor].
Qed.

Lemma only_calls_raise {A} (e : exn) : only_calls P (raise e : M W A).
Proof.
  intros s. exists []. cbn. rewrite app_nil_r. split; [reflexivity|constructor].
Qed.

Lemma only_calls_timeout {A} : only_calls P (timeout : M W A).
Proof.
  intros s. exists []. cbn. rewrite app_nil_r. split; [reflexivity|constructor].
Qed.

Lemma only_calls_log (msg : string) : only_calls P (log msg : M W unit).
Proof.
  intros s. exists [EvLog msg]. cbn. split; [reflexivity|constructor].
Qed.

Lemma only_calls_modify_subscribed (b : bool) :
  only_calls P (modify (set_subscribed b) : M W unit).
Proof.
  intros s. exists []. cbn. rewrite app_nil_r. split; [reflexivity|constructor].
Qed.

Lemma only_calls_bind {A B} (m : M W A) (k : A → M W B) :
  only_calls P m → (∀ a, only_calls P (k a)) → only_calls P (m ≫= k).
Proof.
  intros Hm Hk s. destruct (Hm s) as (evs1 & Ht1 & Hp1).
  unfold mbind, M_bind, bind. destruct (m s) as [s1 [a|e|]]; cbn [fst] in *.
  - destruct (Hk a s1) as (evs2 & Ht2 & Hp2). exists (evs1 ++ evs2).
    rewrite Ht2, Ht1, app_assoc, calls_app. split; [reflexivity|].
    apply Forall_app; auto.
  - exists evs1. auto.
  - exists evs1. auto.
Qed.

Lemma only_calls_try_except {A} (m : M W A) (catches : exn → bool) (h : exn → M W A) :
  only_calls P m → (∀ e, only_calls P (h e)) → only_calls P (try_except m catches h).
Proof.
  intros Hm Hh s. destruct (Hm s) as (evs1 & Ht1 & Hp1).
  unfold try_except. destruct (m s) as [s1 [a|e|]]; cbn [fst] in *.
  - exists evs1. auto.
  - destruct (catches e).
    + destruct (Hh e s1) as (evs2 & Ht2 & Hp2). exists (evs1 ++ evs2).
      rewrite Ht2, Ht1, app_assoc, calls_app. split; [reflexivity|].
      apply Forall_app; auto.
    + exists evs1. auto.
  - exists evs1. auto.
Qed.

Lemma only_calls_leaving {A} (body : M W A) (exit : M W unit) :
  only_calls P body → only_calls P exit → only_calls P (leaving body exit).
Proof.
  intros Hb Hx s. destruct (Hb s) as (evs1 & Ht1 & Hp1).
  unfold leaving. destruct (body s) as [s1 [a|e|]]; cbn [fst] in *.
  - destruct (only_calls_bind exit (fun _ => mret a) Hx (fun _ => only_calls_ret a) s1)
      as (evs2 & Ht2 & Hp2).
    exists (evs1 ++ evs2). unfold mbind, M_bind, mret, M_ret in Ht2.
    rewrite Ht2, Ht1, app_assoc, calls_app. split; [reflexivity|].
    apply Forall_app; auto.
  - destruct (only_calls_bind exit (fun _ => raise e : M W A) Hx
                (fun _ => only_calls_raise e) s1) as (evs2 & Ht2 & Hp2).
    exists (evs1 ++ evs2). unfold mbind, M_bind in Ht2.
    rewrite Ht2, Ht1, app_assoc, calls_app. split; [reflexivity|].
    apply Forall_app; auto.
  - exists evs1. auto.
Qed.

Lemma only_calls_await {A} (a : action) (summary : A → outcome) (call : W → reply W A) :
  (∀ o, P (a, o)) → only_calls P (await args a summary call).
Proof.
  intros Ha s. unfold await. cbv zeta.
  destruct (notify_all_spec args (delivered (call (world s))) (set_world (next (call (world s))) s))
    as (evs & Ht & Hc & _).
  destruct (result (call (world s))) as [e|v]; cbn [fst add_event trace].
  - exists (evs ++ [EvCall a (Raised e)]). rewrite Ht, calls_app, Hc. cbn.
    rewrite <- app_assoc. split; [reflexivity|]. constructor; [apply Ha|constructor].
  - exists (evs ++ [EvCall a (summary v)]). rewrite Ht, calls_app, Hc. cbn.
    rewrite <- app_assoc. split; [reflexivity|]. constructor; [apply Ha|constructor].
Qed.

Lemma only_calls_invoke {A} (a : action) (summary : A → outcome) (call : W → W * (exn + A)) :
  (∀ o, P (a, o)) → only_calls P (invoke a summary call).
Proof.
  intros Ha s. unfold invoke. destruct (call (world s)) as [w [e|v]]; cbn.
  - exists [EvCall a (Raised e)]. split; [reflexivity|]. constructor; [apply Ha|constructor].
  - exists [EvCall a (summary v)]. split; [reflexivity|]. constructor; [apply Ha|constructor].
Qed.

Lemma only_calls_for_each {A} (l : list A) (body : A → M W unit) :
  (∀ x, only_calls P (body x)) → only_calls P (for_each l body).
Proof.
  intros Hb. induction l as [|x l IH]; cbn [for_each].
  - apply only_calls_ret.
  - apply only_calls_bind; [apply Hb|intros _; exact IH].
Qed.

(** The calls of [main], one by one. *)
Hypothesis P_Discover : ∀ o, P (Discover, o).
Hypothesis P_Find : ∀ o, P (FindDeviceByAddress (address args), o).
Hypothesis P_Connect : ∀ dev o, P (Connect dev, o).
Hypothesis P_Disconnect : ∀ o, P (Disconnect, o).
Hypothesis P_Services : ∀ o, P (Services, o).
Hypothesis P_use_celsius : ∀ o, P (WriteGattChar settings_characteristic use_celsius, o).
Hypothesis P_enable_realtime :
  ∀ o, P (WriteGattChar settings_characteristic enable_realtime, o).
Hypothesis P_StartNotify : ∀ o, P (StartNotify data_characteristic, o).
Hypothesis P_StopNotify : ∀ o, P (StopNotify data_characteristic, o).
Hypothesis P_IsConnected : ∀ o, P (IsConnected, o).
Hypothesis P_Sleep : ∀ o, P (Sleep 5, o).

Ltac calls_step :=
  first
    [ apply only_calls_bind; [|intros ?]
    | apply only_calls_log
    | apply only_calls_ret
    | apply only_calls_raise
    | apply only_calls_timeout
    | apply only_calls_modify_subscribed
    | apply only_calls_await; solve [auto]
    | apply only_calls_invoke; solve [auto]
    | apply only_calls_for_each; intros ? ].

Lemma scan_devices_only_calls : only_calls P (scan_devices args env).
Proof.
  unfold scan_devices. repeat calls_step.
Qed.

Lemma liveness_loop_only_calls (fuel : nat) : only_calls P (liveness_loop args env fuel).
Proof.
  induction fuel as [|fuel IH]; cbn [liveness_loop].
  - apply only_calls_timeout.
  - repeat calls_step; [destruct (negb _); calls_step|exact IH].
Qed.

Lemma session_only_calls_from (fuel : nat) :
  only_calls P (liveness_loop args env fuel) → only_calls P (session args env fuel).
Proof.
  intros Hloop. unfold session, streaming. repeat calls_step.
  apply only_calls_try_except; [exact Hloop|intros ?; calls_step].
Qed.

Lemma connection_only_calls_from (fuel : nat) (dev : device) :
  only_calls P (liveness_loop args env fuel) →
  only_calls P (async_with_client args env dev (session args env fuel)).
Proof.
  intros Hloop. unfold async_with_client.
  apply only_calls_bind; [apply only_calls_await; auto|intros _].
  apply only_calls_leaving; [apply session_only_calls_from; exact Hloop|].
  unfold aexit. repeat calls_step.
Qed.

Lemma attempt_only_calls_from (fuel : nat) :
  only_calls P (liveness_loop args env fuel) → only_calls P (attempt args env fuel).
Proof.
  intros Hloop.
  unfold attempt. apply only_calls_bind; [apply only_calls_log|intros _].
  apply only_calls_bind; [apply scan_devices_only_calls|intros _].
  apply only_calls_bind; [apply only_calls_await; auto|intros found].
  destruct found as [dev|]; [|apply only_calls_raise].
  apply only_calls_bind; [apply only_calls_log|intros _].
  apply connection_only_calls_from. exact Hloop.
Qed.

Lemma main_iteration_only_calls_from (fuel : nat) :
  only_calls P (liveness_loop args env fuel) → only_calls P (main_iteration args env fuel).
Proof.
  intros Hloop. unfold main_iteration.
  apply only_calls_try_except; [apply attempt_only_calls_from; exact Hloop|].
  intros e. unfold retry. repeat calls_step.
Qed.

Lemma main_only_calls (fuel : nat) : only_calls P (main args env fuel).
Proof.
  induction fuel as [|fuel IH]; cbn [main].
  - apply only_calls_timeout.
  - apply only_calls_bind; [|intros _; exact IH].
    apply main_iteration_only_calls_from. apply liveness_loop_only_calls.
Qed.
End OnlyCalls.

Section SupervisorTarget.
Context {W : Type}.
Variable args : Namespace.
Variable env : Env W.

Lemma main_resolves_configured (fuel : nat) (s : state W) :
  Forall (resolves_configured args) (calls (new_events s (fst (main args env fuel s)))).
Proof.
  destruct (main_only_calls args env (resolves_configured args)) with (fuel := fuel) (s := s)
    as (evs & Ht & HP); try (intros; exact I).
  - intros o. reflexivity.
  - rewrite (new_events_app _ _ _ Ht). exact HP.
Qed.

(** X11. The supervisor looks for one device only, the one of the configured
    address ([--address]), and connects to nothing else: every connection is
    opened on the device that [find_device_by_address] returned for that
    address in the call just before, itself directly after a completed scan.
    A device seen by the scan is not connected to on that ground. *)
Theorem connects_to_configured_device (fuel : nat) (s : state W) :
  let h := calls (new_events s (fst (main args env fuel s))) in
  (∀ addr o, In (FindDeviceByAddress addr, o) h → addr = address args) ∧
  (∀ pre dev o post,
     h = pre ++ (Connect dev, o) :: post →
     ∃ pre', pre = pre' ++ [(Discover, Returned);
                            (FindDeviceByAddress (address args), ReturnedDevice (Some dev))]).
Proof.
  cbv zeta.
  pose proof (main_resolves_configured fuel s) as HP.
  assert (Haddr : ∀ addr o,
            In (FindDeviceByAddress addr, o)
               (calls (new_events s (fst (main args env fuel s)))) → addr = address args).
  { intros addr o Hin. rewrite List.Forall_forall in HP. exact (HP _ Hin). }
  split; [exact Haddr|].
  intros pre dev o post Hh.
  destruct (main_history args env fuel s) as (q & Hrun & _ & _). cbv zeta in Hrun.
  rewrite Hh in Hrun.
  apply sup_run_split in Hrun as (q0 & q1 & Hq0 & Hstep & _).
  apply step_on_Connect in Hstep as ->.
  apply sup_run_last in Hq0 as [[_ [=]] | (h1 & c1 & p1 & -> & Hh1 & Hs1)].
  apply step_into_Connecting in Hs1 as [-> [addr ->]].
  apply sup_run_last in Hh1 as [[_ [=]] | (h2 & c2 & p2 & -> & _ & Hs2)].
  apply step_into_Resolving in Hs2 as [_ ->].
  assert (addr = address args) as ->.
  { apply (Haddr addr (ReturnedDevice (Some dev))). rewrite Hh.
    rewrite !in_app_iff. left. right. left. reflexivity. }
  exists h2. rewrite <- app_assoc. reflexivity.
Qed.

End SupervisorTarget.

Section SupervisorRegistry.
Context {W : Type}.
Variable args : Namespace.
Variable env : Env W.

(** X13. The gauges that [main] leaves are those of the last notification
    handled: whatever the scans, connections, failures and retries of the run,
    with no notification the registry is as it was; otherwise the timestamp is
    the arrival time of the last one, the gauge of probe 2 holds the decoding
    of bytes 2-3 of its payload and, when the two labels differ, the gauge of
    probe 1 the decoding of bytes 0-1. *)
Theorem main_exports_latest_reading (fuel : nat) (s : state W) :
  let s' := fst (main args env fuel s) in
  (quiet (new_events s s') = true → registry s' = registry s) ∧
  (∀ pre now data post,
     new_events s s' = pre ++ EvNotification now data :: post →
     quiet post = true →
     ∃ t1 t2 f1 f2,
       bytes_to_temperature (slice data 0 2) s = (s, Ok t1) ∧ float_of_pyval t1 = Ok f1 ∧
       bytes_to_temperature (slice data 2 4) s = (s, Ok t2) ∧ float_of_pyval t2 = Ok f2 ∧
       last_received (registry s') = now ∧
       temperature (registry s') !! str (probe2_name args) = Some f2 ∧
       (str (probe1_name args) ≠ str (probe2_name args) →
        temperature (registry s') !! str (probe1_name args) = Some f1)).
Proof.
  cbv zeta.
  destruct (main_history args env fuel s) as (q & _ & _ & Hreg). cbv zeta in Hreg.
  split.
  - intros Hq. rewrite Hreg. apply replay_quiet. exact Hq.
  - intros pre now data post Hev Hq.
    rewrite Hev, replay_app in Hreg. cbn [replay] in Hreg.
    rewrite (replay_quiet _ _ _ Hq) in Hreg. unfold registry_after in Hreg.
    match type of Hreg with
    | _ = registry (fst (data_notify_handler _ _ _ ?s0)) =>
        destruct (data_notify_handler_run args data_characteristic data s0)
          as (t1 & t2 & f1 & f2 & H1 & H2 & Hf1 & Hf2 & Hrun)
    end.
    rewrite Hrun in Hreg. cbn [fst] in Hreg.
    rewrite bytes_to_temperature_run in H1. rewrite bytes_to_temperature_run in H2.
    injection H1 as H1. injection H2 as H2.
    exists t1, t2, f1, f2. rewrite !bytes_to_temperature_run, H1, H2, Hreg.
    split; [reflexivity|]. split; [exact Hf1|].
    split; [reflexivity|]. split; [exact Hf2|].
    split; [reflexivity|]. split.
    + cbn. apply lookup_insert_eq.
    + intros Hne. cbn. rewrite lookup_insert_ne by congruence. apply lookup_insert_eq.
Qed.
End SupervisorRegistry.

Lemma connects_to_configured_device_witness :
  let h := interrupt_calls in
  In (FindDeviceByAddress (Some "AA:BB:CC:DD:EE:FF"%string), ReturnedDevice (Some demo_device)) h ∧
  Some "AA:BB:CC:DD:EE:FF"%string = address two_names ∧
  h = firstn 14 h ++ (Connect demo_device, Returned) :: skipn 15 h ∧
  ∃ pre', firstn 14 h
          = pre' ++ [(Discover, Returned);
                     (FindDeviceByAddress (address two_names),
                      ReturnedDevice (Some demo_device))].
Proof.
  cbv zeta. unfold interrupt_calls, interrupt_run.
  pose proof (connects_to_configured_device two_names interrupt_env demo_fuel
                (initial_state 0%nat)) as H.
  cbv zeta in H. destruct H as (Haddr & Hconnect).
  match goal with
  | |- ?i ∧ _ ∧ ?h = ?l ∧ _ =>
      assert (Hin : i) by (vm_compute; tauto);
      assert (Hsplit : h = l) by (vm_compute; reflexivity)
  end.
  split; [exact Hin|]. split; [exact (Haddr _ _ Hin)|].
  split; [exact Hsplit|]. exact (Hconnect _ _ _ _ Hsplit).
Defined.

Lemma main_exports_latest_reading_witness :
  let quiet_events := new_events (initial_state 0%nat) (fst interrupt_run) in
  let pre := firstn 30 demo_events in
  let post := skipn 31 demo_events in
  quiet quiet_events = true ∧
  registry (fst interrupt_run) = empty_registry ∧
  demo_events = pre ++ EvNotification f0_5 [Byte.x01; Byte.x00; Byte.x02; Byte.x00] :: post ∧
  quiet post = true ∧
  last_received (registry (fst demo_run)) = f0_5 ∧
  temperature (registry (fst demo_run)) !! "grill"%string = Some f0_2 ∧
  temperature (registry (fst demo_run)) !! "meat"%string = Some f0_1.
Proof.
  cbv zeta. unfold demo_events, demo_run, interrupt_run.
  pose proof (main_exports_latest_reading two_names interrupt_env demo_fuel
                (initial_state 0%nat)) as [Hquiet _].
  pose proof (main_exports_latest_reading two_names demo_env demo_fuel
                (initial_state 0%nat)) as [_ Hlast].
  cbv zeta in Hquiet, Hlast.
  match goal with
  | |- ?a = true ∧ _ ∧ ?h = ?l ∧ ?b = true ∧ _ =>
      assert (Hq1 : a = true) by (vm_compute; reflexivity);
      assert (Hsplit : h = l) by (vm_compute; reflexivity);
      assert (Hq2 : b = true) by (vm_compute; reflexivity)
  end.
  split; [exact Hq1|]. split; [exact (Hquiet Hq1)|].
  split; [exact Hsplit|]. split; [exact Hq2|].
  destruct (Hlast _ _ _ _ Hsplit Hq2)
    as (t1 & t2 & f1 & f2 & H1 & Hf1 & H2 & Hf2 & Htime & Hp2 & Hp1).
  split; [exact Htime|].
  rewrite bytes_to_temperature_run in H1. rewrite bytes_to_temperature_run in H2.
  vm_compute in H1. vm_compute in H2.
  injection H1 as <-. injection H2 as <-.
  vm_compute in Hf1. vm_compute in Hf2.
  injection Hf1 as <-. injection Hf2 as <-.
  split; [exact Hp2|]. apply Hp1. vm_compute. discriminate.
Defined.

(** * The outer loop goes on *)

Lemma new_events_refl {W} (s : state W) : new_events s s = [].
Proof.
  apply new_events_app. rewrite app_nil_r. reflexivity.
Qed.

Section SupervisorProgress.
Context {W : Type}.
Variable args : Namespace.
Variable env : Env W.

(** *** The trace only grows *)

Lemma liveness_loop_grows (fuel : nat) :
  only_calls (fun _ => True) (liveness_loop args env fuel).
Proof.
  apply liveness_loop_only_calls; intros; exact I.
Qed.

Lemma main_grows (fuel : nat) : only_calls (fun _ => True) (main args env fuel).
Proof.
  apply main_only_calls; intros; exact I.
Qed.

(** *** The first call of a turn is the scan *)

Lemma begins_with_await {A} (a : action) (summary : A → outcome) (call : W → reply W A) :
  begins_with a (await args a summary call).
Proof.
  intros s. unfold await. cbv zeta.
  destruct (notify_all_spec args (delivered (call (world s)))
              (set_world (next (call (world s))) s)) as (evs & Ht & Hc & _).
  destruct (result (call (world s))) as [e|v]; cbn [fst add_event trace].
  - exists (evs ++ [EvCall a (Raised e)]), (Raised e), [].
    rewrite Ht, calls_app, Hc. cbn. rewrite <- app_assoc. auto.
  - exists (evs ++ [EvCall a (summary v)]), (summary v), [].
    rewrite Ht, calls_app, Hc. cbn. rewrite <- app_assoc. auto.
Qed.

Lemma begins_with_bind {A B} (a : action) (m : M W A) (k : A → M W B) :
  begins_with a m → (∀ x, only_calls (fun _ => True) (k x)) → begins_with a (m ≫= k).
Proof.
  intros Hm Hk s. destruct (Hm s) as (evs1 & o & rest & Ht1 & Hc1).
  unfold mbind, M_bind, bind. destruct (m s) as [s1 [x|e|]]; cbn [fst] in *.
  - destruct (Hk x s1) as (evs2 & Ht2 & _).
    exists (evs1 ++ evs2), o, (rest ++ calls evs2).
    rewrite Ht2, Ht1, app_assoc, calls_app, Hc1. auto.
  - exists evs1, o, rest. auto.
  - exists evs1, o, rest. auto.
Qed.

Lemma begins_with_after_log {A} (a : action) (msg : string) (k : M W A) :
  begins_with a k → begins_with a (log msg;; k).
Proof.
  intros Hk s. unfold mbind, M_bind, bind, log, modify. cbv beta iota.
  destruct (Hk (add_event (EvLog msg) s)) as (evs & o & rest & Ht & Hc).
  exists (EvLog msg :: evs), o, rest. rewrite Ht. cbn [add_event trace calls].
  rewrite <- app_assoc. auto.
Qed.

Lemma begins_with_try_except {A} (a : action) (m : M W A) (catches : exn → bool)
      (h : exn → M W A) :
  begins_with a m → (∀ e, only_calls (fun _ => True) (h e)) →
  begins_with a (try_except m catches h).
Proof.
  intros Hm Hh s. destruct (Hm s) as (evs1 & o & rest & Ht1 & Hc1).
  unfold try_except. destruct (m s) as [s1 [x|e|]]; cbn [fst] in *.
  - exists evs1, o, rest. auto.
  - destruct (catches e).
    + destruct (Hh e s1) as (evs2 & Ht2 & _).
      exists (evs1 ++ evs2), o, (rest ++ calls evs2).
      rewrite Ht2, Ht1, app_assoc, calls_app, Hc1. auto.
    + exists evs1, o, rest. auto.
  - exists evs1, o, rest. auto.
Qed.

Lemma scan_devices_begins : begins_with Discover (scan_devices args env).
Proof.
  unfold scan_devices. apply begins_with_after_log.
  apply begins_with_bind; [apply begins_with_await|intros devices].
  apply only_calls_for_each. intros da.
  apply only_calls_bind; [apply only_calls_log|intros _].
  apply only_calls_bind; [apply only_calls_log|intros _]. apply only_calls_log.
Qed.

Lemma attempt_begins (fuel : nat) : begins_with Discover (attempt args env fuel).
Proof.
  unfold attempt. apply begins_with_after_log.
  apply begins_with_bind; [apply scan_devices_begins|intros _].
  apply only_calls_bind; [apply only_calls_await; intros; exact I|intros found].
  destruct found as [dev|]; [|apply only_calls_raise].
  apply only_calls_bind; [apply only_calls_log|intros _].
  apply connection_only_calls_from; try (intros; exact I).
  apply liveness_loop_grows.
Qed.

Lemma main_iteration_begins (fuel : nat) :
  begins_with Discover (main_iteration args env fuel).
Proof.
  unfold main_iteration. apply begins_with_try_except; [apply attempt_begins|].
  intros e. unfold retry.
  apply only_calls_bind; [apply only_calls_log|intros _].
  apply only_calls_bind; [apply only_calls_log|intros _].
  apply only_calls_bind; [apply only_calls_log|intros _].
  apply only_calls_await. intros; exact I.
Qed.

Lemma main_begins (fuel : nat) : begins_with Discover (main args env (S fuel)).
Proof.
  cbn [main]. apply begins_with_bind; [apply main_iteration_begins|].
  intros _. apply main_grows.
Qed.

(** *** A larger budget does not change a turn that ended *)

Lemma continues_refl {A} (m : M W A) : continues m m.
Proof. intros s _. reflexivity. Qed.

Lemma continues_bind {A B} (m m' : M W A) (k k' : A → M W B) :
  continues m m' → (∀ x, continues (k x) (k' x)) → continues (m ≫= k) (m' ≫= k').
Proof.
  intros Hm Hk s Hs. unfold mbind, M_bind, bind in *.
  destruct (m s) as [s1 [x|e|]] eqn:Hms.
  - rewrite (Hm s) by (rewrite Hms; discriminate). rewrite Hms. apply Hk. exact Hs.
  - rewrite (Hm s) by (rewrite Hms; discriminate). rewrite Hms. reflexivity.
  - exfalso. apply Hs. reflexivity.
Qed.

Lemma continues_try_except {A} (m m' : M W A) (catches : exn → bool) (h : exn → M W A) :
  continues m m' → continues (try_except m catches h) (try_except m' catches h).
Proof.
  intros Hm s Hs. unfold try_except in *.
  destruct (m s) as [s1 [x|e|]] eqn:Hms.
  - rewrite (Hm s) by (rewrite Hms; discriminate). rewrite Hms. reflexivity.
  - rewrite (Hm s) by (rewrite Hms; discriminate). rewrite Hms. reflexivity.
  - exfalso. apply Hs. reflexivity.
Qed.

Lemma continues_leaving {A} (body body' : M W A) (exit : M W unit) :
  continues body body' → continues (leaving body exit) (leaving body' exit).
Proof.
  intros Hm s Hs. unfold leaving in *.
  destruct (body s) as [s1 [x|e|]] eqn:Hms.
  - rewrite (Hm s) by (rewrite Hms; discriminate). rewrite Hms. reflexivity.
  - rewrite (Hm s) by (rewrite Hms; discriminate). rewrite Hms. reflexivity.
  - exfalso. apply Hs. reflexivity.
Qed.

Lemma liveness_loop_continues (fuel : nat) :
  continues (liveness_loop args env fuel) (liveness_loop args env (S fuel)).
Proof.
  induction fuel as [|fuel IH].
  - intros s Hs. exfalso. apply Hs. reflexivity.
  - change (continues
              (await args (Sleep 5) returned (sleep env 5);;
               connected ← invoke IsConnected ReturnedBool (is_connected env);
               (if negb connected then raise Disconnected else mret tt);;
               liveness_loop args env fuel)
              (await args (Sleep 5) returned (sleep env 5);;
               connected ← invoke IsConnected ReturnedBool (is_connected env);
               (if negb connected then raise Disconnected else mret tt);;
               liveness_loop args env (S fuel))).
    apply continues_bind; [apply continues_refl|intros _].
    apply continues_bind; [apply continues_refl|intros connected].
    apply continues_bind; [apply continues_refl|intros _]. exact IH.
Qed.

Lemma session_continues (fuel : nat) :
  continues (session args env fuel) (session args env (S fuel)).
Proof.
  unfold session, streaming.
  repeat (apply continues_bind; [apply continues_refl|intros ?]).
  apply continues_bind; [|intros ?; apply continues_refl].
  apply continues_try_except. apply liveness_loop_continues.
Qed.

Lemma attempt_continues (fuel : nat) :
  continues (attempt args env fuel) (attempt args env (S fuel)).
Proof.
  unfold attempt.
  apply continues_bind; [apply continues_refl|intros _].
  apply continues_bind; [apply continues_refl|intros _].
  apply continues_bind; [apply continues_refl|intros found].
  destruct found as [dev|]; [|apply continues_refl].
  apply continues_bind; [apply continues_refl|intros _].
  unfold async_with_client.
  apply continues_bind; [apply continues_refl|intros _].
  apply continues_leaving. apply session_continues.
Qed.

Lemma main_iteration_continues (fuel : nat) :
  continues (main_iteration args env fuel) (main_iteration args env (S fuel)).
Proof.
  unfold main_iteration. apply continues_try_except. apply attempt_continues.
Qed.

(** *** With one more unit of budget, one more scan *)

(** The turns of a run that the budget ended at the head of the outer loop
    all ended: the run with a larger budget makes the same calls, and then
    the scan of the next turn. *)
Lemma main_progress (fuel : nat) (s : state W) :
  sup_run Discovering (calls (new_events s (fst (main args env fuel s)))) = Some Discovering →
  ∃ o rest,
    calls (new_events s (fst (main args env (S fuel) s)))
    = calls (new_events s (fst (main args env fuel s))) ++ (Discover, o) :: rest.
Proof.
  revert s. induction fuel as [|fuel IH]; intros s Hq.
  - destruct (main_begins 0 s) as (evs & o & rest & Ht & Hc).
    exists o, rest. rewrite (new_events_app _ _ _ Ht), Hc.
    change (main args env 0 s) with (s, @Timeout unit). cbn [fst].
    rewrite new_events_refl. reflexivity.
  - destruct (main_iteration_follows args env fuel s) as (evs1 & q1 & Ht1 & _ & Hrun1 & Hq1).
    pose proof (main_iteration_continues fuel s) as Hcont.
    change (main args env (S (S fuel)) s)
      with ((main_iteration args env (S fuel);; main args env (S fuel)) s).
    change (main args env (S fuel) s)
      with ((main_iteration args env fuel;; main args env fuel) s) in Hq |- *.
    unfold mbind, M_bind, bind in Hq |- *.
    destruct (main_iteration args env fuel s) as [s1 [[]|e|]] eqn:Hit; cbn [fst snd] in *.
    + rewrite Hcont by discriminate. cbn in Hq1. subst q1.
      destruct (main_grows fuel s1) as (evs2 & Ht2 & _).
      destruct (main_grows (S fuel) s1) as (evs3 & Ht3 & _).
      assert (H2 : new_events s (fst (main args env fuel s1)) = evs1 ++ evs2).
      { apply new_events_app. rewrite Ht2, Ht1, app_assoc. reflexivity. }
      assert (H3 : new_events s (fst (main args env (S fuel) s1)) = evs1 ++ evs3).
      { apply new_events_app. rewrite Ht3, Ht1, app_assoc. reflexivity. }
      rewrite H2, calls_app, sup_run_app, Hrun1 in Hq.
      destruct (IH s1) as (o & rest & Hext).
      { rewrite (new_events_app _ _ _ Ht2). exact Hq. }
      rewrite (new_events_app _ _ _ Ht2), (new_events_app _ _ _ Ht3) in Hext.
      exists o, rest. rewrite H2, H3, !calls_app, Hext, app_assoc. reflexivity.
    + rewrite (new_events_app _ _ _ Ht1), Hrun1 in Hq. cbn in Hq1. subst q1.
      discriminate Hq.
    + rewrite (new_events_app _ _ _ Ht1), Hrun1 in Hq. cbn in Hq1. subst q1.
      discriminate Hq.
Qed.

(** A run whose last call is a retry delay that returned was ended by the
    budget, at the head of the outer loop. *)
Lemma ends_with_delay (fuel : nat) (s : state W) (pre : list (action * outcome)) :
  calls (new_events s (fst (main args env fuel s))) = pre ++ [(Sleep 5, Returned)] →
  sup_run Discovering (calls (new_events s (fst (main args env fuel s)))) = Some Discovering.
Proof.
  intros Hh. destruct (main_history args env fuel s) as (q & Hrun & Hafter & _).
  cbv zeta in Hrun, Hafter. rewrite Hrun. f_equal.
  apply after_main_resting in Hafter. rewrite Hh in Hrun.
  apply sup_run_split in Hrun as (q0 & q1 & _ & Hstep & Hend).
  cbn in Hend. injection Hend as <-.
  destruct q0 as [| | ? |[| |]| | | | |[?|]| | ?]; cbn in Hstep; simplify_eq;
    first [reflexivity|destruct Hafter].
Qed.

(** The state of the machine at the end of a run tells how the run ended. *)
Lemma ended_by_budget (fuel : nat) (s : state W) :
  sup_run Discovering (calls (new_events s (fst (main args env fuel s)))) = Some Discovering →
  snd (main args env fuel s) = Timeout.
Proof.
  intros Hq. destruct (main_history args env fuel s) as (q & Hrun & Hafter & _).
  cbv zeta in Hrun, Hafter. rewrite Hrun in Hq. injection Hq as ->.
  destruct (snd (main args env fuel s)) as [[]|e|]; cbn in Hafter;
    [destruct Hafter|discriminate Hafter|reflexivity].
Qed.

(** *** A turn that polled is not the last of the budget *)

Lemma last_turn_does_not_poll (s : state W) :
  Forall not_a_poll (calls (new_events s (fst (main_iteration args env 0 s)))).
Proof.
  destruct (main_iteration_only_calls_from args env not_a_poll) with (fuel := 0%nat) (s := s)
    as (evs & Ht & HP); try (intros; unfold not_a_poll; cbn; discriminate).
  - apply only_calls_timeout.
  - rewrite (new_events_app _ _ _ Ht). exact HP.
Qed.

Lemma step_on_delay_returned (q q' : phase) :
  sup_step q (Sleep 5, Returned) = Some q' → q' = Polling ∨ q' = Discovering.
Proof.
  intros H. destruct q as [| | ? |[| |]| | | | |[?|]| | ?]; cbn in H; simplify_eq; auto.
Qed.

Lemma run_goes_on_after_poll (fuel : nat) (s : state W) (pre : list (action * outcome))
      (o1 o2 : outcome) :
  calls (new_events s (fst (main args env fuel s)))
  ≠ pre ++ [(IsConnected, o1); (Disconnect, o2); (Sleep 5, Returned)].
Proof.
  revert s pre. induction fuel as [|fuel IH]; intros s pre Hh.
  - change (main args env 0 s) with (s, @Timeout unit) in Hh. cbn [fst] in Hh.
    rewrite new_events_refl in Hh. cbn in Hh. destruct pre; discriminate Hh.
  - destruct (main_iteration_follows args env fuel s) as (evs1 & q1 & Ht1 & _ & Hrun1 & Hq1).
    change (main args env (S fuel) s)
      with ((main_iteration args env fuel;; main args env fuel) s) in Hh.
    unfold mbind, M_bind, bind in Hh.
    pose proof (last_turn_does_not_poll s) as Hlast.
    destruct (main_iteration args env fuel s) as [s1 [[]|e|]] eqn:Hit; cbn [fst snd] in *.
    + destruct fuel as [|fuel].
      * rewrite Hit in Hlast. cbn [fst] in Hlast.
        change (main args env 0 s1) with (s1, @Timeout unit) in Hh. cbn [fst] in Hh.
        rewrite Hh in Hlast. rewrite List.Forall_forall in Hlast.
        apply (Hlast (IsConnected, o1)); [|reflexivity].
        rewrite in_app_iff. right. left. reflexivity.
      * clear Hlast.
        destruct (main_begins fuel s1) as (evs2 & o & rest & Ht2 & Hc2).
        assert (H2 : new_events s (fst (main args env (S fuel) s1)) = evs1 ++ evs2).
        { apply new_events_app. rewrite Ht2, Ht1, app_assoc. reflexivity. }
        rewrite H2, calls_app, Hc2 in Hh.
        apply List.app_eq_app in Hh as [l [[_ Hl] | [_ Hl]]].
        -- destruct l as [|c1 [|c2 [|c3 [|c4 l]]]]; cbn in Hl; simplify_eq.
        -- apply (IH s1 l). rewrite (new_events_app _ _ _ Ht2), Hc2. exact Hl.
    + rewrite (new_events_app _ _ _ Ht1) in Hh. rewrite Hh in Hrun1.
      change (pre ++ [(IsConnected, o1); (Disconnect, o2); (Sleep 5, Returned)])
        with (pre ++ [(IsConnected, o1); (Disconnect, o2)] ++ [(Sleep 5, Returned)]) in Hrun1.
      rewrite app_assoc in Hrun1.
      apply sup_run_split in Hrun1 as (q0 & q2 & _ & Hstep & Hend).
      cbn in Hend. injection Hend as <-. cbn in Hq1. subst q2.
      apply step_on_delay_returned in Hstep as [[=] | [=]].
    + rewrite (new_events_app _ _ _ Ht1) in Hh. rewrite Hh in Hrun1.
      change (pre ++ [(IsConnected, o1); (Disconnect, o2); (Sleep 5, Returned)])
        with (pre ++ [(IsConnected, o1); (Disconnect, o2)] ++ [(Sleep 5, Returned)]) in Hrun1.
      rewrite app_assoc in Hrun1.
      apply sup_run_split in Hrun1 as (q0 & q2 & _ & Hstep & Hend).
      cbn in Hend. injection Hend as <-. cbn in Hq1. subst q2.
      apply step_on_delay_returned in Hstep as [[=] | [=]].
Qed.
End SupervisorProgress.

(** ** The claims on the outer loop *)

Lemma step_from_ListServices (c : action * outcome) (q : phase) :
  sup_step (Configuring ListServices) c = Some q →
  ∃ o, c = (Services, o) ∧ (o = Returned → q = Configuring SelectCelsius).
Proof.
  intros H. destruct c as [[] []]; cbn in H; simplify_eq;
    (eexists; split; [reflexivity|]); auto; discriminate.
Qed.

Lemma step_from_SelectCelsius (c : action * outcome) (q : phase) :
  sup_step (Configuring SelectCelsius) c = Some q →
  ∃ o, c = (WriteGattChar settings_characteristic use_celsius, o) ∧
       (o = Returned → q = Configuring EnableRealtime).
Proof.
  intros H. destruct c as [[] []]; cbn in H; repeat case_match; simplify_eq;
    destruct_and!; subst;
    (eexists; split; [reflexivity|]); auto; discriminate.
Qed.

Lemma step_from_EnableRealtime (c : action * outcome) (q : phase) :
  sup_step (Configuring EnableRealtime) c = Some q →
  ∃ o, c = (WriteGattChar settings_characteristic enable_realtime, o) ∧
       (o = Returned → q = Subscribing).
Proof.
  intros H. destruct c as [[] []]; cbn in H; repeat case_match; simplify_eq;
    destruct_and!; subst;
    (eexists; split; [reflexivity|]); auto; discriminate.
Qed.

Section SupervisorLoop.
Context {W : Type}.
Variable args : Namespace.
Variable env : Env W.


(** C8. In every run, whatever is written to a characteristic is one of the
    two 6-byte frames [02 00 00 00 00 00] and [0B 01 00 00 00 00], written to
    the settings characteristic; a subscription follows the two of them, in
    this order; and both are written at the setup of every session: a
    connection that is opened is followed by the listing of the services, then
    by the write of the first frame, then, when that write returned, by the
    write of the second. *)
Theorem settings_frames (fuel : nat) (s : state W) :
  let h := calls (new_events s (fst (main args env fuel s))) in
  let settings := "0000fff5-0000-1000-8000-00805f9b34fb"%string in
  let celsius := [Byte.x02; Byte.x00; Byte.x00; Byte.x00; Byte.x00; Byte.x00] in
  let realtime := [Byte.x0b; Byte.x01; Byte.x00; Byte.x00; Byte.x00; Byte.x00] in
  (∀ char data o,
     In (WriteGattChar char data, o) h →
     char = settings ∧ (data = celsius ∨ data = realtime)) ∧
  (∀ pre char o post,
     h = pre ++ (StartNotify char, o) :: post →
     ∃ pre',
       pre = pre' ++ [(WriteGattChar settings celsius, Returned);
                      (WriteGattChar settings realtime, Returned)]) ∧
  (∀ pre dev post,
     h = pre ++ (Connect dev, Returned) :: post →
     ∃ o0 post0,
       post = (Services, o0) :: post0 ∧
       (o0 = Returned →
        ∃ o1 post1,
          post0 = (WriteGattChar settings celsius, o1) :: post1 ∧
          (o1 = Returned →
           ∃ o2 post2, post1 = (WriteGattChar settings realtime, o2) :: post2))).
Proof.
  cbv zeta. destruct (main_history args env fuel s) as (q & Hrun & Hafter & _).
  cbv zeta in *. apply after_main_resting in Hafter.
  split; [|split].
  - intros char data o Hin. apply in_split in Hin as (pre & post & Hh).
    rewrite Hh in Hrun.
    apply sup_run_split in Hrun as (q0 & q1 & Hq0 & Hstep & _).
    apply step_on_WriteGattChar in Hstep as [-> [[_ ->] | [_ ->]]]; auto.
  - intros pre char o post Hh. rewrite Hh in Hrun.
    apply sup_run_split in Hrun as (q0 & q1 & Hq0 & Hstep & _).
    apply step_on_StartNotify in Hstep as [-> _].
    apply history_to_Subscribing in Hq0 as (pre' & dev & ->).
    exists (pre' ++ [(Connect dev, Returned); (Services, Returned)]).
    rewrite <- app_assoc. reflexivity.
  - intros pre dev post Hh. rewrite Hh in Hrun.
    apply sup_run_split in Hrun as (q0 & q1 & _ & Hstep & Hpost).
    pose proof (step_on_Connect _ _ _ _ Hstep) as ->.
    cbn in Hstep. rewrite decide_True in Hstep by reflexivity. injection Hstep as <-.
    destruct post as [|c0 post0]; cbn [sup_run] in Hpost.
    { injection Hpost as <-. destruct Hafter. }
    destruct (sup_step (Configuring ListServices) c0) as [q2|] eqn:Hs0; [|discriminate].
    apply step_from_ListServices in Hs0 as (o0 & -> & Hq2).
    exists o0, post0. split; [reflexivity|]. intros Ho0. rewrite (Hq2 Ho0) in Hpost.
    destruct post0 as [|c1 post1]; cbn [sup_run] in Hpost.
    { injection Hpost as <-. destruct Hafter. }
    destruct (sup_step (Configuring SelectCelsius) c1) as [q3|] eqn:Hs1; [|discriminate].
    apply step_from_SelectCelsius in Hs1 as (o1 & -> & Hq3).
    exists o1, post1. split; [reflexivity|]. intros Ho1. rewrite (Hq3 Ho1) in Hpost.
    destruct post1 as [|c2 post2]; cbn [sup_run] in Hpost.
    { injection Hpost as <-. destruct Hafter. }
    destruct (sup_step (Configuring EnableRealtime) c2) as [q4|] eqn:Hs2; [|discriminate].
    apply step_from_EnableRealtime in Hs2 as (o2 & -> & _).
    exists o2, post2. reflexivity.
Qed.

(** C7. When the liveness flag reads not connected, the supervisor was
    streaming and becomes disconnected: the connection is closed, then the
    5-second delay, and when it returned the next call of the run is the scan
    of a new turn: a turn that polled is never the last one of the step
    budget, so the scan is in the run.  The registry at the end of the run is the registry as it
    stood at the poll, changed by the notifications handled since and by
    nothing else: with no notification after the poll it still holds the last
    values. *)
Theorem disconnect_keeps_registry (fuel : nat) (s : state W) (before after : list event) :
  let s' := fst (main args env fuel s) in
  new_events s s' = before ++ EvCall IsConnected (ReturnedBool false) :: after →
  sup_run Discovering (calls before) = Some Polling ∧
  sup_run Discovering (calls before ++ [(IsConnected, ReturnedBool false)])
  = Some (Closing (Some Disconnected)) ∧
  closed_then_scanned (calls after) ∧
  registry s' = replay args after (replay args before (registry s)) ∧
  (quiet after = true → registry s' = replay args before (registry s)).
Proof.
  cbv zeta. intros Hev.
  destruct (main_history args env fuel s) as (q & Hrun & Hafter & Hreg). cbv zeta in *.
  pose proof (run_goes_on_after_poll args env fuel s (calls before) (ReturnedBool false))
    as Hgoes.
  rewrite Hev in Hrun, Hreg, Hgoes. rewrite calls_app in Hrun, Hgoes.
  cbn [calls] in Hrun, Hgoes.
  apply sup_run_split in Hrun as (q0 & q1 & Hq0 & Hstep & Hpost).
  apply step_on_poll_false in Hstep as [-> ->].
  rewrite replay_app in Hreg. cbn [replay] in Hreg.
  split; [exact Hq0|]. split; [|split; [|split]].
  - rewrite sup_run_app, Hq0. reflexivity.
  - assert (Hretried : closed_then_retried (calls after)).
    { eapply run_from_Closing; [exact Hpost| |reflexivity].
      eapply after_main_resting; eauto. }
    destruct Hretried as (o & post' & Hafter' & [Hhalt | (o' & rest & -> & Hrest)]).
    + exists o, post'. split; [exact Hafter'|]. left. exact Hhalt.
    + exists o, ((Sleep 5, o') :: rest). split; [exact Hafter'|]. right.
      exists o', rest. split; [reflexivity|]. intros ->.
      destruct (Hrest eq_refl) as [-> | Hscan]; [|exact Hscan].
      exfalso. apply (Hgoes o). rewrite Hafter'. reflexivity.
  - exact Hreg.
  - intros Hq. rewrite Hreg. apply replay_quiet. exact Hq.
Qed.
End SupervisorLoop.

(** ** The claims on the outer loop, in the scripted environment *)



Lemma settings_frames_witness :
  let settings := "0000fff5-0000-1000-8000-00805f9b34fb"%string in
  let celsius := [Byte.x02; Byte.x00; Byte.x00; Byte.x00; Byte.x00; Byte.x00] in
  let realtime := [Byte.x0b; Byte.x01; Byte.x00; Byte.x00; Byte.x00; Byte.x00] in
  let pre := firstn 6 demo_calls in
  let post := skipn 7 demo_calls in
  In (WriteGattChar settings_characteristic use_celsius, Returned) demo_calls ∧
  In (WriteGattChar settings_characteristic enable_realtime, Returned) demo_calls ∧
  (settings_characteristic = settings ∧ (use_celsius = celsius ∨ use_celsius = realtime)) ∧
  (settings_characteristic = settings ∧
   (enable_realtime = celsius ∨ enable_realtime = realtime)) ∧
  demo_calls = pre ++ (Connect demo_device, Returned) :: post ∧
  post = (Services, Returned) :: (WriteGattChar settings celsius, Returned)
         :: (WriteGattChar settings realtime, Returned) :: skipn 10 demo_calls ∧
  ∃ o0 post0,
    post = (Services, o0) :: post0 ∧
    (o0 = Returned →
     ∃ o1 post1,
       post0 = (WriteGattChar settings celsius, o1) :: post1 ∧
       (o1 = Returned →
        ∃ o2 post2, post1 = (WriteGattChar settings realtime, o2) :: post2)).
Proof.
  cbv zeta. cbv delta [demo_calls demo_events demo_run].
  pose proof (settings_frames two_names demo_env demo_fuel (initial_state 0%nat)) as H.
  cbv zeta in H. destruct H as (Hwrites & _ & Hsetup).
  match goal with
  | |- ?i1 ∧ ?i2 ∧ _ ∧ _ ∧ ?h = ?l ∧ ?e ∧ _ =>
      assert (Hin1 : i1) by (vm_compute; tauto);
      assert (Hin2 : i2) by (vm_compute; tauto);
      assert (Hsplit : h = l) by (vm_compute; reflexivity);
      assert (Hpost : e) by (vm_compute; reflexivity)
  end.
  split; [exact Hin1|]. split; [exact Hin2|].
  split; [exact (Hwrites _ _ _ Hin1)|]. split; [exact (Hwrites _ _ _ Hin2)|].
  split; [exact Hsplit|]. split; [exact Hpost|].
  exact (Hsetup _ _ _ Hsplit).
Defined.

Lemma disconnect_keeps_registry_witness :
  let before := firstn 34 demo_events in
  let after := skipn 35 demo_events in
  demo_events = before ++ EvCall IsConnected (ReturnedBool false) :: after ∧
  quiet after = true ∧
  firstn 3 (calls after) = [(Disconnect, Returned); (Sleep 5, Returned); (Discover, Returned)] ∧
  (sup_run Discovering (calls before) = Some Polling ∧
   sup_run Discovering (calls before ++ [(IsConnected, ReturnedBool false)])
   = Some (Closing (Some Disconnected)) ∧
   closed_then_scanned (calls after) ∧
   registry (fst demo_run)
   = replay two_names after (replay two_names before (registry (initial_state 0%nat))) ∧
   (quiet after = true →
    registry (fst demo_run) = replay two_names before (registry (initial_state 0%nat)))) ∧
  temperature (registry (fst demo_run)) !! "meat" = Some f0_1 ∧
  temperature (registry (fst demo_run)) !! "grill" = Some f0_2.
Proof.
  cbv zeta. cbv delta [demo_events demo_run].
  match goal with
  | |- ?h = ?l ∧ _ => assert (Hsplit : h = l) by (vm_compute; reflexivity)
  end.
  split; [exact Hsplit|]. split; [vm_compute; reflexivity|].
  split; [vm_compute; reflexivity|].
  split; [|split; vm_compute; reflexivity].
  exact (disconnect_keeps_registry two_names demo_env demo_fuel (initial_state 0%nat)
           _ _ Hsplit).
Defined.
